(** * GSC URL Inspection: quota tracking, result cache, batch runner and
      result normaliser of [app.py], embedded and verified.

    The Python code keeps its state in [st.session_state] (a quota
    dictionary and a cache dictionary), reads the wall clock with
    [datetime.now()], and talks to the remote inspection service.  The
    embedding threads a [session] record through a state-and-exception
    monad; the clock and the remote service are oracles of a [world]. *)

From Stdlib Require Import ZArith Lia List.
From stdpp Require Import base option gmap strings list pretty.

Local Open Scope Z_scope.

(** ** Time *)

(** A naive [datetime] is a count of microseconds on the local time line;
    a [timedelta] is a difference of two such counts. *)
Definition datetime := Z.
Definition timedelta := Z.

Definition microseconds_per_second : Z := 1000000.
Definition microseconds_per_day : Z := 86400 * microseconds_per_second.

Definition timedelta_minutes (m : Z) : timedelta := m * 60 * microseconds_per_second.
Definition timedelta_hours (h : Z) : timedelta := h * 3600 * microseconds_per_second.
Definition timedelta_seconds (s : Z) : timedelta := s * microseconds_per_second.

(** [d.date()], as the ordinal of the calendar day. *)
Definition date (d : datetime) : Z := d `div` microseconds_per_day.

(** ** Quota tracking *)

(** [st.session_state.quota_usage]: the key ['minute_reset'] is absent from
    the dictionary the session starts with, hence the [option]. *)
Record quota_usage := QuotaUsage {
  daily : Z;
  per_minute : Z;
  last_reset : datetime;
  minute_reset : option datetime
}.

Definition set_daily (v : Z) (q : quota_usage) : quota_usage :=
  QuotaUsage v (per_minute q) (last_reset q) (minute_reset q).
Definition set_per_minute (v : Z) (q : quota_usage) : quota_usage :=
  QuotaUsage (daily q) v (last_reset q) (minute_reset q).
Definition set_last_reset (t : datetime) (q : quota_usage) : quota_usage :=
  QuotaUsage (daily q) (per_minute q) t (minute_reset q).
Definition set_minute_reset (t : datetime) (q : quota_usage) : quota_usage :=
  QuotaUsage (daily q) (per_minute q) (last_reset q) (Some t).

(** The session's first quota dictionary:
    [{'daily': 0, 'per_minute': 0, 'last_reset': datetime.now()}]. *)
Definition initial_quota_usage (now : datetime) : quota_usage :=
  QuotaUsage 0 0 now None.

(** The attributes [GSCInspector.__init__] sets. *)
Record GSCInspector := MkInspector {
  daily_limit : Z;
  minute_limit : Z
}.

Definition GSCInspector_init : GSCInspector := MkInspector 2000 600.

(** [GSCInspector.check_quota], for the clock value [now] it reads once. *)
Definition check_quota_at (self : GSCInspector) (now : datetime)
    (q : quota_usage) : bool * quota_usage :=
  let q1 :=
    if date now >? date (last_reset q)
    then set_last_reset now (set_daily 0 q)
    else q in
  if daily q1 >=? daily_limit self then (false, q1)
  else
    let q2 :=
      if now - default now (minute_reset q1) >? timedelta_minutes 1
      then set_minute_reset now (set_per_minute 0 q1)
      else q1 in
    if per_minute q2 >=? minute_limit self then (false, q2)
    else (true, q2).

(** [GSCInspector.update_quota]. *)
Definition update_quota_of (q : quota_usage) : quota_usage :=
  set_per_minute (per_minute q + 1) (set_daily (daily q + 1) q).

(** The reset [batch_inspect] performs after its one-minute pause. *)
Definition throttle_reset (now : datetime) (q : quota_usage) : quota_usage :=
  set_minute_reset now (set_per_minute 0 q).

(** Both counters are within the limits of [self]. *)
Definition within_limits (self : GSCInspector) (q : quota_usage) : Prop :=
  daily q <= daily_limit self /\ per_minute q <= minute_limit self.

(** *** Sequences of quota operations *)

Inductive quota_op :=
  | OpCheck (now : datetime)      (* check_quota() *)
  | OpUpdate                      (* update_quota() *)
  | OpThrottle (now : datetime).  (* the reset after the preemptive pause *)

(** One operation.  The flag says whether the operation just before this
    point was a [check_quota] that returned [True]. *)
Definition quota_step (self : GSCInspector) (op : quota_op)
    (st : bool * quota_usage) : bool * quota_usage :=
  match op with
  | OpCheck now => check_quota_at self now (snd st)
  | OpUpdate => (false, update_quota_of (snd st))
  | OpThrottle now => (false, throttle_reset now (snd st))
  end.

(** The states a sequence of operations passes through, in order. *)
Fixpoint quota_states (self : GSCInspector) (ops : list quota_op)
    (st : bool * quota_usage) : list quota_usage :=
  match ops with
  | [] => []
  | op :: ops' =>
      let st' := quota_step self op st in
      snd st' :: quota_states self ops' st'
  end.

(** Every [update_quota] of the sequence comes right after a [check_quota]
    that returned [True]. *)
Fixpoint checked_before_update (self : GSCInspector) (ops : list quota_op)
    (st : bool * quota_usage) : bool :=
  match ops with
  | [] => true
  | op :: ops' =>
      match op with
      | OpUpdate => fst st
      | _ => true
      end && checked_before_update self ops' (quota_step self op st)
  end.

(** ** Python values and exceptions *)

(** What [json.loads] produces, and what the remote service returns:
    the [Any] of the source's [Dict[str, Any]].  A dictionary keeps its
    items as an association list; lookup finds the first item of a key. *)
#[local] Set Warnings "-register-all".
Inductive json :=
  | JNull
  | JBool (b : bool)
  | JInt (n : Z)
  | JFloat (literal : string)
  | JStr (s : string)
  | JList (items : list json)
  | JDict (items : list (string * json)).

(** The body of an [HttpError]: [e.content.decode()] followed by
    [json.loads] either yields a value or raises with [reason]. *)
Inductive http_content :=
  | BodyJson (value : json)
  | BodyNotJson (raw : string) (reason : string).

(** The exceptions the modelled code meets; all derive from [Exception]. *)
Inductive exn :=
  | Exception (msg : string)
  | HttpError (content : http_content) (text : string)
  | JSONDecodeError (msg : string)
  | AttributeError (msg : string)
  | TypeError (msg : string)
  | KeyError (msg : string)
  | ValueError (msg : string)
  | OtherError (cls msg : string).

(** [str(e)]; of a [KeyError] it is the [repr] of the key, a plain string
    between quotes. *)
Definition exn_str (e : exn) : string :=
  match e with
  | Exception msg | JSONDecodeError msg | AttributeError msg
  | TypeError msg | ValueError msg => msg
  | KeyError key => "'" +:+ key +:+ "'"
  | HttpError _ text => text
  | OtherError _ msg => msg
  end.

(** A computation that returns or raises. *)
Inductive result (A : Type) :=
  | Ok (a : A)
  | Raise (e : exn).
Arguments Ok {A} a.
Arguments Raise {A} e.

#[global] Instance result_ret : MRet result := fun _ a => Ok a.
#[global] Instance result_bind : MBind result := fun _ _ f m =>
  match m with
  | Ok a => f a
  | Raise e => Raise e
  end.

(** [type(o).__name__]. *)
Definition py_type_name (o : json) : string :=
  match o with
  | JNull => "NoneType"
  | JBool _ => "bool"
  | JInt _ => "int"
  | JFloat _ => "float"
  | JStr _ => "str"
  | JList _ => "list"
  | JDict _ => "dict"
  end.

Fixpoint dict_lookup (k : string) (d : list (string * json)) : option json :=
  match d with
  | [] => None
  | (k', v) :: d' => if String.eqb k' k then Some v else dict_lookup k d'
  end.

(** [d.get(k, dflt)] on a value known to be a dictionary. *)
Definition dict_get (d : list (string * json)) (k : string) (dflt : json) : json :=
  default dflt (dict_lookup k d).

(** [o.get(k, dflt)] on any value: only a dictionary has the method. *)
Definition py_get (o : json) (k : string) (dflt : json) : result json :=
  match o with
  | JDict d => Ok (dict_get d k dflt)
  | _ => Raise (AttributeError
                  ("'" +:+ py_type_name o +:+ "' object has no attribute 'get'"))
  end.

Definition is_JStr (k : string) (j : json) : bool :=
  match j with
  | JStr s => String.eqb s k
  | _ => false
  end.

(** [k in o]: key of a dictionary, element of a list, substring of a
    string; other values are not containers. *)
Definition py_in (k : string) (o : json) : result bool :=
  match o with
  | JDict d => Ok (bool_decide (is_Some (dict_lookup k d)))
  | JList l => Ok (existsb (is_JStr k) l)
  | JStr s => Ok (bool_decide (is_Some (String.index 0 k s)))
  | _ => Raise (TypeError
                  ("argument of type '" +:+ py_type_name o +:+ "' is not iterable"))
  end.

(** [o[k]] for a string [k]. *)
Definition py_getitem (o : json) (k : string) : result json :=
  match o with
  | JDict d =>
      match dict_lookup k d with
      | Some v => Ok v
      | None => Raise (KeyError k)
      end
  | JList _ => Raise (TypeError "list indices must be integers or slices, not str")
  | JStr _ => Raise (TypeError "string indices must be integers, not 'str'")
  | _ => Raise (TypeError ("'" +:+ py_type_name o +:+ "' object is not subscriptable"))
  end.

Fixpoint string_chars (s : string) : list json :=
  match s with
  | EmptyString => []
  | String c s' => JStr (String c EmptyString) :: string_chars s'
  end.

(** What [for item in o] ranges over. *)
Definition py_iter (o : json) : result (list json) :=
  match o with
  | JList l => Ok l
  | JDict d => Ok (map (fun kv => JStr (fst kv)) d)
  | JStr s => Ok (string_chars s)
  | _ => Raise (TypeError ("'" +:+ py_type_name o +:+ "' object is not iterable"))
  end.

(** [sep.join(items)]: every item must be a [str]; [i] is the place of
    the first of [items] in the sequence joined. *)
Fixpoint py_join_from (i : nat) (sep : string) (items : list json) : result string :=
  match items with
  | [] => Ok EmptyString
  | JStr s :: rest =>
      match rest with
      | [] => Ok s
      | _ => tl ← py_join_from (S i) sep rest; Ok (s +:+ sep +:+ tl)
      end
  | item :: _ =>
      Raise (TypeError ("sequence item " +:+ pretty i +:+ ": expected str instance, "
                        +:+ py_type_name item +:+ " found"))
  end.

Definition py_join (sep : string) (items : list json) : result string :=
  py_join_from 0 sep items.

(** The list comprehension [[f(item) for item in items]]. *)
Fixpoint py_map (f : json -> result json) (items : list json) : result (list json) :=
  match items with
  | [] => Ok []
  | x :: rest => y ← f x; ys ← py_map f rest; Ok (y :: ys)
  end.

(** ** Result normaliser *)

(** The dictionary [parse_inspection_result] builds: fourteen fixed keys. *)
Record flat_record := FlatRecord {
  inspection_url : json;
  inspection_result_link : json;
  verdict : json;
  coverage_state : json;
  indexing_state : json;
  last_crawl_time : json;
  page_fetch_state : json;
  robots_txt_state : json;
  user_canonical : json;
  google_canonical : json;
  mobile_verdict : json;
  rich_results_verdict : json;
  rich_results_detected : json;
  crawled_as : json
}.

Definition empty_str : json := JStr "".

(** The three sections of [inspectionResult], each writing its keys. *)
Definition parse_index_status (inspection : json) (p : flat_record) : result flat_record :=
  present ← py_in "indexStatusResult" inspection;
  if (present : bool) then
    idx_status ← py_getitem inspection "indexStatusResult";
    v ← py_get idx_status "verdict" empty_str;
    cs ← py_get idx_status "coverageState" empty_str;
    ix ← py_get idx_status "indexingState" empty_str;
    lc ← py_get idx_status "lastCrawlTime" empty_str;
    pf ← py_get idx_status "pageFetchState" empty_str;
    rb ← py_get idx_status "robotsTxtState" empty_str;
    uc ← py_get idx_status "userCanonical" empty_str;
    gc ← py_get idx_status "googleCanonical" empty_str;
    ca ← py_get idx_status "crawledAs" empty_str;
    Ok (FlatRecord (inspection_url p) (inspection_result_link p)
          v cs ix lc pf rb uc gc
          (mobile_verdict p) (rich_results_verdict p) (rich_results_detected p) ca)
  else Ok p.

Definition parse_mobile_usability (inspection : json) (p : flat_record) : result flat_record :=
  present ← py_in "mobileUsabilityResult" inspection;
  if (present : bool) then
    mobile ← py_getitem inspection "mobileUsabilityResult";
    v ← py_get mobile "verdict" empty_str;
    Ok (FlatRecord (inspection_url p) (inspection_result_link p)
          (verdict p) (coverage_state p) (indexing_state p) (last_crawl_time p)
          (page_fetch_state p) (robots_txt_state p) (user_canonical p)
          (google_canonical p) v (rich_results_verdict p)
          (rich_results_detected p) (crawled_as p))
  else Ok p.

Definition parse_rich_results (inspection : json) (p : flat_record) : result flat_record :=
  present ← py_in "richResultsResult" inspection;
  if (present : bool) then
    rich_results ← py_getitem inspection "richResultsResult";
    v ← py_get rich_results "verdict" empty_str;
    detected_items ← py_get rich_results "detectedItems" (JList []);
    items ← py_iter detected_items;
    types ← py_map (fun item => py_get item "richResultType" empty_str) items;
    joined ← py_join ", " types;
    Ok (FlatRecord (inspection_url p) (inspection_result_link p)
          (verdict p) (coverage_state p) (indexing_state p) (last_crawl_time p)
          (page_fetch_state p) (robots_txt_state p) (user_canonical p)
          (google_canonical p) (mobile_verdict p) v (JStr joined) (crawled_as p))
  else Ok p.

(** [parse_inspection_result(result)], [result] being an outcome dictionary. *)
Definition parse_inspection_result (outcome : list (string * json)) : result flat_record :=
  let parsed :=
    FlatRecord (dict_get outcome "url" empty_str)
      empty_str empty_str empty_str empty_str empty_str empty_str empty_str
      empty_str empty_str empty_str empty_str empty_str empty_str in
  present ← py_in "inspectionResult" (dict_get outcome "data" (JDict []));
  if (present : bool) then
    data ← py_getitem (JDict outcome) "data";
    inspection ← py_getitem data "inspectionResult";
    link ← py_get inspection "inspectionResultLink" empty_str;
    let parsed :=
      FlatRecord (inspection_url parsed) link
        (verdict parsed) (coverage_state parsed) (indexing_state parsed)
        (last_crawl_time parsed) (page_fetch_state parsed)
        (robots_txt_state parsed) (user_canonical parsed)
        (google_canonical parsed) (mobile_verdict parsed)
        (rich_results_verdict parsed) (rich_results_detected parsed)
        (crawled_as parsed) in
    parsed ← parse_index_status inspection parsed;
    parsed ← parse_mobile_usability inspection parsed;
    parse_rich_results inspection parsed
  else Ok parsed.

(** ** Session state, clock and remote service *)

(** An item of [st.session_state.cache]: [{'data': ..., 'timestamp': ...}]. *)
Record cached_data := CachedData {
  data : json;
  timestamp : datetime
}.

(** What the code does to the outside, in the order it does it. *)
Inductive event :=
  | EvInspect (siteUrl inspectionUrl languageCode : string) (* a remote call *)
  | EvSleep (duration : timedelta)                          (* time.sleep *)
  | EvProgress (done total : nat) (text : string).          (* the callback *)

(** The two session dictionaries, how often the clock was read and the
    service called so far, and the events so far. *)
Record session := Session {
  quota : quota_usage;
  cache : gmap string cached_data;
  ticks : nat;
  calls : nat;
  trace : list event
}.

(** What the code is given from outside: library functions that are not
    part of it, the wall clock (the value of the [n]-th [datetime.now()])
    and the remote service (the outcome of the [n]-th [execute()]). *)
Record world := World {
  md5_hexdigest : string -> string;
  isoformat : datetime -> string;
  py_str : json -> string;
  clock : nat -> datetime;
  execute : nat -> string -> string -> string -> result json
}.

(** Computations on the session that return or raise. *)
Definition M (A : Type) : Type := session -> result A * session.

#[global] Instance M_ret : MRet M := fun _ a s => (Ok a, s).
#[global] Instance M_bind : MBind M := fun _ _ f m s =>
  match m s with
  | (Ok a, s') => f a s'
  | (Raise e, s') => (Raise e, s')
  end.

Definition raise {A} (e : exn) : M A := fun s => (Raise e, s).

(** [try: body  except HttpError as e: handler(e.content)]. *)
Definition try_except_HttpError {A} (body : M A) (handler : http_content -> M A) : M A :=
  fun s =>
    match body s with
    | (Raise (HttpError content _), s') => handler content s'
    | r => r
    end.

(** [try: body  except Exception as e: handler(e)]. *)
Definition try_except_Exception {A} (body : M A) (handler : exn -> M A) : M A :=
  fun s =>
    match body s with
    | (Raise e, s') => handler e s'
    | r => r
    end.

Definition lift_result {A} (r : result A) : M A := fun s => (r, s).

Definition get_quota : M quota_usage := fun s => (Ok (quota s), s).
Definition put_quota (q : quota_usage) : M unit := fun s =>
  (Ok tt, Session q (cache s) (ticks s) (calls s) (trace s)).
Definition get_cache : M (gmap string cached_data) := fun s => (Ok (cache s), s).
Definition put_cache (c : gmap string cached_data) : M unit := fun s =>
  (Ok tt, Session (quota s) c (ticks s) (calls s) (trace s)).
Definition emit (e : list event) : M unit := fun s =>
  (Ok tt, Session (quota s) (cache s) (ticks s) (calls s) (trace s ++ e)).

(** [datetime.now()]. *)
Definition datetime_now (w : world) : M datetime := fun s =>
  (Ok (clock w (ticks s)),
   Session (quota s) (cache s) (S (ticks s)) (calls s) (trace s)).

(** [time.sleep(duration)]. *)
Definition time_sleep (duration : timedelta) : M unit := emit [EvSleep duration].

(** [self.service.urlInspection().index().inspect(body=request).execute()]. *)
Definition service_inspect (w : world) (siteUrl inspectionUrl languageCode : string) : M json :=
  fun s =>
    (execute w (calls s) siteUrl inspectionUrl languageCode,
     Session (quota s) (cache s) (ticks s) (S (calls s))
       (trace s ++ [EvInspect siteUrl inspectionUrl languageCode])).

(** ** Inspection client *)

(** [GSCInspector.get_cache_key]. *)
Definition get_cache_key (w : world) (site_url inspection_url : string) : string :=
  md5_hexdigest w (site_url +:+ ":" +:+ inspection_url).

(** [GSCInspector.check_quota]. *)
Definition check_quota (w : world) (self : GSCInspector) : M bool :=
  now ← datetime_now w;
  q ← get_quota;
  put_quota (snd (check_quota_at self now q));;
  mret (fst (check_quota_at self now q)).

(** [GSCInspector.update_quota]. *)
Definition update_quota : M unit :=
  q ← get_quota;
  put_quota (update_quota_of q).

(** What an f-string prints for a value. *)
Definition format_value (w : world) (v : json) : string :=
  match v with
  | JStr s => s
  | _ => py_str w v
  end.

Definition json_loads (content : http_content) : result json :=
  match content with
  | BodyJson v => Ok v
  | BodyNotJson _ reason => Raise (JSONDecodeError reason)
  end.

(** The body of the [except HttpError] clause of [inspect_url]. *)
Definition api_error (w : world) (content : http_content) : M json :=
  error_content ← lift_result (json_loads content);
  err ← lift_result (py_get error_content "error" (JDict []));
  message ← lift_result (py_get err "message" (JStr "Unknown error"));
  raise (Exception ("API Error: " +:+ format_value w message)).

(** The cache test that opens [inspect_url]: the response to return at
    once, if any.  The clock is read only when the key is in the cache. *)
Definition cache_probe (w : world) (cache_key : string) (use_cache : bool) : M (option json) :=
  c ← get_cache;
  if use_cache then
    match c !! cache_key with
    | Some cached_data =>
        now ← datetime_now w;
        if now - timestamp cached_data <? timedelta_hours 24
        then mret (Some (data cached_data))
        else mret None
    | None => mret None
    end
  else mret None.

(** [GSCInspector.inspect_url]. *)
Definition inspect_url (w : world) (self : GSCInspector)
    (site_url inspection_url : string) (use_cache : bool) : M json :=
  let cache_key := get_cache_key w site_url inspection_url in
  hit ← cache_probe w cache_key use_cache;
  match hit with
  | Some cached => mret cached
  | None =>
      ok ← check_quota w self;
      if negb ok then raise (Exception "Quota limit reached. Please try again later.")
      else
        try_except_HttpError
          (response ← service_inspect w site_url inspection_url "en-US";
           update_quota;;
           now ← datetime_now w;
           c ← get_cache;
           put_cache (<[cache_key := CachedData response now]> c);;
           mret response)
          (api_error w)
  end.

(** ** Batch runner *)

(** The outcome dictionaries [batch_inspect] appends. *)
Definition success_outcome (url : string) (response : json) (ts : string) : list (string * json) :=
  [("url", JStr url); ("status", JStr "success"); ("data", response); ("timestamp", JStr ts)].

Definition error_outcome (url : string) (message : string) (ts : string) : list (string * json) :=
  [("url", JStr url); ("status", JStr "error"); ("error", JStr message); ("timestamp", JStr ts)].

(** A progress callback receives the fraction [done / total], kept as its
    two terms, and a text; what it does is a list of events. *)
Definition progress_callback := nat -> nat -> string -> list event.

(** The rate-limiting test at the head of the loop body. *)
Definition preemptive_throttle (w : world) (self : GSCInspector) : M unit :=
  q ← get_quota;
  if per_minute q >=? minute_limit self - 10 then
    time_sleep (timedelta_seconds 60);;
    q ← get_quota;
    put_quota (set_per_minute 0 q);;
    now ← datetime_now w;
    q ← get_quota;
    put_quota (set_minute_reset now q)
  else mret tt.

Definition inter_call_delay : timedelta := 100000.

Definition progress_text (done total : nat) : string :=
  "Processed " +:+ pretty done +:+ " of " +:+ pretty total +:+ " URLs".

(** The rest of the [try] block: the inspection and the success outcome. *)
Definition inspect_and_append (w : world) (self : GSCInspector) (site_url url : string)
    (results : list (list (string * json))) : M (list (list (string * json))) :=
  result ← inspect_url w self site_url url true;
  now ← datetime_now w;
  time_sleep inter_call_delay;;
  mret (results ++ [success_outcome url result (isoformat w now)]).

(** The [except Exception as e] clause: the error outcome. *)
Definition append_error (w : world) (url : string)
    (results : list (list (string * json))) (e : exn) : M (list (list (string * json))) :=
  now ← datetime_now w;
  mret (results ++ [error_outcome url (exn_str e) (isoformat w now)]).

(** [if progress_callback: progress_callback((i + 1) / total_urls, ...)]. *)
Definition report_progress (callback : option progress_callback) (total_urls i : nat) : M unit :=
  match callback with
  | Some cb => emit (cb (S i) total_urls (progress_text (S i) total_urls))
  | None => mret tt
  end.

(** One turn of the [for] loop of [batch_inspect], for the [i]-th URL. *)
Definition batch_iteration (w : world) (self : GSCInspector) (site_url : string)
    (callback : option progress_callback) (total_urls i : nat) (url : string)
    (results : list (list (string * json))) : M (list (list (string * json))) :=
  results ← try_except_Exception
    (preemptive_throttle w self;;
     inspect_and_append w self site_url url results)
    (append_error w url results);
  report_progress callback total_urls i;;
  mret results.

Fixpoint batch_loop (w : world) (self : GSCInspector) (site_url : string)
    (callback : option progress_callback) (total_urls i : nat) (urls : list string)
    (results : list (list (string * json))) : M (list (list (string * json))) :=
  match urls with
  | [] => mret results
  | url :: rest =>
      results ← batch_iteration w self site_url callback total_urls i url results;
      batch_loop w self site_url callback total_urls (S i) rest results
  end.

(** [GSCInspector.batch_inspect]. *)
Definition batch_inspect (w : world) (self : GSCInspector) (site_url : string)
    (urls : list string) (callback : option progress_callback)
    : M (list (list (string * json))) :=
  batch_loop w self site_url callback (length urls) 0 urls [].

(** ** The driver of a run *)

(** [range(0, stop, step)] for a positive [step]. *)
Definition py_range_step (stop step : nat) : list nat :=
  map (fun k => (k * step)%nat) (seq 0 ((stop + step - 1) / step)%nat).

(** [update_progress], closed over the batch at offset [i]. *)
Definition update_progress (i batch_len total_len : nat) : progress_callback :=
  fun done total text =>
    [EvProgress (i * total + done * batch_len) (total * total_len) text].

Fixpoint run_batches (w : world) (self : GSCInspector) (selected_property : string)
    (urls_to_inspect : list string) (batch_size : nat) (delay_between_batches : Z)
    (starts : list nat) (all_results : list (list (string * json)))
    : M (list (list (string * json))) :=
  match starts with
  | [] => mret all_results
  | i :: rest =>
      let batch := take batch_size (drop i urls_to_inspect) in
      batch_results ← batch_inspect w self selected_property batch
        (Some (update_progress i (length batch) (length urls_to_inspect)));
      (if (i + batch_size <? length urls_to_inspect)%nat
       then time_sleep (timedelta_seconds delay_between_batches)
       else mret tt);;
      run_batches w self selected_property urls_to_inspect batch_size
        delay_between_batches rest (all_results ++ batch_results)
  end.

(** The body of the "Start Inspection" button of [main]: [use_cache] is the
    value of the "Use cache (24h)" checkbox, [batch_size] and
    [delay_between_batches] the values of the two number inputs. *)
Definition start_inspection (w : world) (self : GSCInspector) (use_cache : bool)
    (selected_property : string) (urls_to_inspect : list string)
    (batch_size : nat) (delay_between_batches : Z)
    : M (list (list (string * json))) :=
  match urls_to_inspect, batch_size with
  | [], _ => mret []
  | _, O => raise (ValueError "range() arg 3 must not be zero")
  | _, _ =>
      run_batches w self selected_property urls_to_inspect batch_size
        delay_between_batches (py_range_step (length urls_to_inspect) batch_size) []
  end.

(** The session a process starts with, the clock reading [now]. *)
Definition initial_session (now : datetime) : session :=
  Session (initial_quota_usage now) ∅ 0 0 [].

(** A session after one more reading of the clock. *)
Definition tick (s : session) : session :=
  Session (quota s) (cache s) (S (ticks s)) (calls s) (trace s).

(** ** Predicates of the statements *)

(** The invariant of a run of quota operations: the counters are within
    the limits, and strictly below them while the flag is up. *)
Definition quota_inv (self : GSCInspector) (st : bool * quota_usage) : Prop :=
  within_limits self (snd st) /\
  (fst st = true ->
   daily (snd st) < daily_limit self /\ per_minute (snd st) < minute_limit self).

(** [o] is an outcome dictionary for [url]: a success with a response or
    an error with a message. *)
Definition outcome_for (url : string) (o : list (string * json)) : Prop :=
  (exists response ts, o = success_outcome url response ts) \/
  (exists message ts, o = error_outcome url message ts).

(** The shape of a response of the inspection service: the sections the
    normaliser reads are dictionaries when present, the detected items a
    list of dictionaries, and the type of a detected item a string. *)
Definition is_dict (j : json) : bool :=
  match j with
  | JDict _ => true
  | _ => false
  end.

Definition section_ok (d : list (string * json)) (k : string) (ok : json -> bool) : bool :=
  match dict_lookup k d with
  | Some v => ok v
  | None => true
  end.

Definition item_shaped (item : json) : bool :=
  match item with
  | JDict d =>
      match dict_lookup "richResultType" d with
      | Some (JStr _) | None => true
      | Some _ => false
      end
  | _ => false
  end.

Definition rich_results_shaped (rich_results : json) : bool :=
  match rich_results with
  | JDict d =>
      match dict_lookup "detectedItems" d with
      | Some (JList items) => forallb item_shaped items
      | Some _ => false
      | None => true
      end
  | _ => false
  end.

Definition inspection_shaped (inspection : json) : bool :=
  match inspection with
  | JDict d =>
      section_ok d "indexStatusResult" is_dict
      && section_ok d "mobileUsabilityResult" is_dict
      && section_ok d "richResultsResult" rich_results_shaped
  | _ => false
  end.

Definition response_shaped (response : json) : bool :=
  match response with
  | JDict d => section_ok d "inspectionResult" inspection_shaped
  | _ => false
  end.

(** The record whose fields are all the empty string, but for the URL. *)
Definition blank_record (url : json) : flat_record :=
  FlatRecord url empty_str empty_str empty_str empty_str empty_str empty_str
    empty_str empty_str empty_str empty_str empty_str empty_str empty_str.

(** A world for concrete runs.  The identity stands in for MD5 and the
    formatting functions print nothing: no statement depends on them. *)
Definition sample_world (clock : nat -> datetime)
    (execute : nat -> string -> string -> string -> result json) : world :=
  World (fun s => s) (fun _ => "") (fun _ => "") clock execute.

(** ** The URLs of a run *)

(** [s.split(sep)] for a separator of one character: the fields between
    the separators, one more than there are separators. *)
Fixpoint py_split (sep : Ascii.ascii) (s : string) : list string :=
  match s with
  | EmptyString => [EmptyString]
  | String c s' =>
      if Ascii.eqb c sep then EmptyString :: py_split sep s'
      else match py_split sep s' with
           | field :: fields => String c field :: fields
           | [] => [String c EmptyString]
           end
  end.

(** [s.lstrip()], [s.rstrip()] and [s.strip()]; [isspace] is the test
    [str.isspace] of one character. *)
Fixpoint py_lstrip (isspace : Ascii.ascii -> bool) (s : string) : string :=
  match s with
  | EmptyString => EmptyString
  | String c s' => if isspace c then py_lstrip isspace s' else s
  end.

Fixpoint py_rstrip (isspace : Ascii.ascii -> bool) (s : string) : string :=
  match s with
  | EmptyString => EmptyString
  | String c s' =>
      match py_rstrip isspace s' with
      | EmptyString => if isspace c then EmptyString else String c EmptyString
      | kept => String c kept
      end
  end.

Definition py_strip (isspace : Ascii.ascii -> bool) (s : string) : string :=
  py_lstrip isspace (py_rstrip isspace s).

Definition newline : Ascii.ascii := Ascii.ascii_of_nat 10.

(** The URLs [main] takes from the text area:
    [[url.strip() for url in urls_text.split('\n') if url.strip()]], and
    none when the text is empty. *)
Definition urls_from_text (isspace : Ascii.ascii -> bool) (urls_text : string) : list string :=
  match urls_text with
  | EmptyString => []
  | _ =>
      omap (fun url =>
              match py_strip isspace url with
              | EmptyString => None
              | stripped => Some stripped
              end)
        (py_split newline urls_text)
  end.

Fixpoint string_last (s : string) : option Ascii.ascii :=
  match s with
  | EmptyString => None
  | String c EmptyString => Some c
  | String _ s' => string_last s'
  end.

(** [str.isspace] on the characters below 256. *)
Definition latin1_isspace (c : Ascii.ascii) : bool :=
  let n := Ascii.nat_of_ascii c in
  ((9 <=? n) && (n <=? 13) || (28 <=? n) && (n <=? 32)
   || (n =? 133) || (n =? 160))%nat.

(** ** Authentication *)

(** [str(e)] of a [KeyError] is the [repr] of its key. *)
Definition py_exn_str (e : exn) : string :=
  match e with
  | KeyError k => "'" +:+ k +:+ "'"
  | _ => exn_str e
  end.

(** [authenticate_gsc], for the outcome [sites_list] of making the
    credentials, building the service and executing [sites().list()]; of
    the pair it returns, the list of properties. *)
Definition authenticate_gsc (sites_list : result json) : result (list json) :=
  match
    sites ← sites_list;
    entries ← py_get sites "siteEntry" (JList []);
    entries ← py_iter entries;
    py_map (fun site => py_getitem site "siteUrl") entries
  with
  | Ok properties => Ok properties
  | Raise e => Raise (Exception ("Authentication failed: " +:+ py_exn_str e))
  end.

(** ** The report of a run *)

(** The items of the dictionary [parse_inspection_result] returns, in the
    order of its keys. *)
Definition flat_record_items (r : flat_record) : list (string * json) :=
  [("inspection_url", inspection_url r);
   ("inspection_result_link", inspection_result_link r);
   ("verdict", verdict r);
   ("coverage_state", coverage_state r);
   ("indexing_state", indexing_state r);
   ("last_crawl_time", last_crawl_time r);
   ("page_fetch_state", page_fetch_state r);
   ("robots_txt_state", robots_txt_state r);
   ("user_canonical", user_canonical r);
   ("google_canonical", google_canonical r);
   ("mobile_verdict", mobile_verdict r);
   ("rich_results_verdict", rich_results_verdict r);
   ("rich_results_detected", rich_results_detected r);
   ("crawled_as", crawled_as r)].

(** [d[k] = v]: the value of a key the dictionary has is replaced in
    place, a new key goes to the end. *)
Fixpoint dict_set (k : string) (v : json) (d : list (string * json)) : list (string * json) :=
  match d with
  | [] => [(k, v)]
  | (k', v') :: d' =>
      if String.eqb k' k then (k, v) :: d' else (k', v') :: dict_set k v d'
  end.

(** The row [main] makes of one outcome of [st.session_state.inspection_results]. *)
Definition report_row (outcome : list (string * json)) : result (list (string * json)) :=
  status ← py_getitem (JDict outcome) "status";
  if is_JStr "success" status then
    parsed ← parse_inspection_result outcome;
    url ← py_getitem (JDict outcome) "url";
    ts ← py_getitem (JDict outcome) "timestamp";
    Ok (dict_set "timestamp" ts
          (dict_set "status" (JStr "success")
             (dict_set "url" url (flat_record_items parsed))))
  else
    url ← py_getitem (JDict outcome) "url";
    ts ← py_getitem (JDict outcome) "timestamp";
    Ok [("url", url); ("status", JStr "error");
        ("error", dict_get outcome "error" (JStr "Unknown error"));
        ("timestamp", ts)].

(** The loop that fills [parsed_results]. *)
Fixpoint report_rows (outcomes : list (list (string * json)))
    : result (list (list (string * json))) :=
  match outcomes with
  | [] => Ok []
  | outcome :: rest =>
      row ← report_row outcome;
      rows ← report_rows rest;
      Ok (row :: rows)
  end.

(** [len(df_results[df_results['status'] == status])]. *)
Definition count_status (status : string) (rows : list (list (string * json))) : nat :=
  length (filter (fun row => is_JStr status (dict_get row "status" JNull) = true) rows).

(** A row has the fourteen fields of a flat record, each under its key. *)
Definition row_has_fields (parsed : flat_record) (row : list (string * json)) : Prop :=
  dict_lookup "inspection_url" row = Some (inspection_url parsed)
  /\ dict_lookup "inspection_result_link" row = Some (inspection_result_link parsed)
  /\ dict_lookup "verdict" row = Some (verdict parsed)
  /\ dict_lookup "coverage_state" row = Some (coverage_state parsed)
  /\ dict_lookup "indexing_state" row = Some (indexing_state parsed)
  /\ dict_lookup "last_crawl_time" row = Some (last_crawl_time parsed)
  /\ dict_lookup "page_fetch_state" row = Some (page_fetch_state parsed)
  /\ dict_lookup "robots_txt_state" row = Some (robots_txt_state parsed)
  /\ dict_lookup "user_canonical" row = Some (user_canonical parsed)
  /\ dict_lookup "google_canonical" row = Some (google_canonical parsed)
  /\ dict_lookup "mobile_verdict" row = Some (mobile_verdict parsed)
  /\ dict_lookup "rich_results_verdict" row = Some (rich_results_verdict parsed)
  /\ dict_lookup "rich_results_detected" row = Some (rich_results_detected parsed)
  /\ dict_lookup "crawled_as" row = Some (crawled_as parsed).

(** A row reports the outcome of [url]: it carries the URL, and the status
    and the timestamp of the outcome; for a success, under their keys, the
    fourteen fields of what [parse_inspection_result] returns for the
    outcome and nothing else; for an error, the message of the outcome and
    nothing else. *)
Definition row_reports (url : string) (outcome row : list (string * json)) : Prop :=
  dict_lookup "url" row = Some (JStr url)
  /\ dict_lookup "status" row = dict_lookup "status" outcome
  /\ dict_lookup "timestamp" row = dict_lookup "timestamp" outcome
  /\ (dict_lookup "error" outcome = None ->
      exists parsed,
        parse_inspection_result outcome = Ok parsed
        /\ row_has_fields parsed row
        /\ dict_lookup "inspection_url" row = Some (JStr url)
        /\ dict_lookup "error" row = None
        /\ length row = 17%nat)
  /\ (forall message, dict_lookup "error" outcome = Some message ->
                      dict_lookup "error" row = Some message
                      /\ length row = 4%nat).

(** ** What a batch does to the outside *)

(** The session a turn of [batch_inspect] inspects its URL from: after the
    pause and the reset when the per-minute count is within 10 of the
    limit, the session as it is otherwise. *)
Definition after_throttle (w : world) (self : GSCInspector) (s : session) : session :=
  if per_minute (quota s) >=? minute_limit self - 10
  then Session
         (QuotaUsage (daily (quota s)) 0 (last_reset (quota s)) (Some (clock w (ticks s))))
         (cache s) (S (ticks s)) (calls s)
         (trace s ++ [EvSleep (60 * microseconds_per_second)])
  else s.

(** The events of the callback at the end of the [i]-th turn. *)
Definition callback_events (callback : option progress_callback) (total_urls i : nat)
    : list event :=
  match callback with
  | Some cb => cb (S i) total_urls (progress_text (S i) total_urls)
  | None => []
  end.

(** The events of one turn, for [url]: at most a pause of a minute, then
    at most one request, for this site and this URL, then the delay between
    calls if the turn succeeded, then the callback. *)
Definition turn_events (site_url : string) (callback : option progress_callback)
    (total_urls i : nat) (url : string) (evs : list event) : Prop :=
  exists pause request delay,
    evs = pause ++ request ++ delay ++ callback_events callback total_urls i
    /\ (pause = [] \/ pause = [EvSleep (60 * microseconds_per_second)])
    /\ (request = [] \/ request = [EvInspect site_url url "en-US"])
    /\ (delay = [] \/ delay = [EvSleep inter_call_delay]).

(** The events of the turns for [urls], the first being the [i]-th. *)
Fixpoint batch_events (site_url : string) (callback : option progress_callback)
    (total_urls i : nat) (urls : list string) (evs : list event) : Prop :=
  match urls with
  | [] => evs = []
  | url :: rest =>
      exists first others,
        evs = first ++ others
        /\ turn_events site_url callback total_urls i url first
        /\ batch_events site_url callback total_urls (S i) rest others
  end.


Definition is_progress (e : event) : bool :=
  match e with
  | EvProgress _ _ _ => true
  | _ => false
  end.

Definition is_request (e : event) : bool :=
  match e with
  | EvInspect _ _ _ => true
  | _ => false
  end.


(** Two sessions that differ at most in their traces. *)
Definition same_state (s t : session) : Prop :=
  quota s = quota t /\ cache s = cache t /\ ticks s = ticks t /\ calls s = calls t.

(** A progress event whose fraction is above 0 and at most 1; any other
    event. *)
Definition progress_in_range (e : event) : Prop :=
  match e with
  | EvProgress done total _ => (0 < done <= total)%nat
  | _ => True
  end.

(** ** Sample data for concrete runs *)

Definition site_a : string := "sc-domain:a.com".
Definition url_1 : string := "https://a.com/1".
Definition url_2 : string := "https://a.com/2".

Definition indexed_response : json :=
  JDict [("inspectionResult",
          JDict [("indexStatusResult",
                  JDict [("verdict", JStr "PASS");
                         ("coverageState", JStr "Submitted and indexed")])])].

Definition crawled_response : json :=
  JDict [("inspectionResult",
          JDict [("indexStatusResult",
                  JDict [("verdict", JStr "NEUTRAL");
                         ("coverageState", JStr "Crawled - currently not indexed")])])].

(** A structured error body, and a body that is not JSON. *)
Definition quota_error_body : http_content :=
  BodyJson (JDict [("error", JDict [("code", JInt 429); ("message", JStr "Quota exceeded")])]).

Definition gateway_error_body : http_content :=
  BodyNotJson "<html>502 Bad Gateway</html>" "Expecting value: line 1 column 1 (char 0)".

(** A service that answers every call with [r]. *)
Definition always (r : result json) : nat -> string -> string -> string -> result json :=
  fun _ _ _ _ => r.

(** A clock that shows [times], reading after reading, then [late]. *)
Definition clock_of (times : list datetime) (late : datetime) : nat -> datetime :=
  fun n => nth n times late.

(** A session that holds one cache entry, for [url_1] of [site_a]. *)
Definition session_with_entry (q : quota_usage) (entry : cached_data) : session :=
  Session q {[ site_a +:+ ":" +:+ url_1 := entry ]} 0 0 [].

(** * Properties *)

(** Boolean comparisons of [Z] in the hypotheses, turned into orders. *)
Ltac zbool :=
  repeat match goal with
    | H : (_ >? _) = _ |- _ => rewrite Z.gtb_ltb in H
    | H : (_ >=? _) = _ |- _ => rewrite Z.geb_leb in H
    | H : (_ <? _) = true |- _ => apply Z.ltb_lt in H
    | H : (_ <? _) = false |- _ => apply Z.ltb_ge in H
    | H : (_ <=? _) = true |- _ => apply Z.leb_le in H
    | H : (_ <=? _) = false |- _ => apply Z.leb_gt in H
    end.

(** ** Quota tracker *)

Section QuotaTracker.
Variable self : GSCInspector.

Ltac quota_cases :=
  unfold check_quota_at, set_minute_reset, set_per_minute, set_last_reset, set_daily;
  repeat (case_match; simpl in * );
  zbool.

(** The answer of [check_quota] is read off the counters it leaves. *)
Lemma check_quota_at_answer now q :
  fst (check_quota_at self now q) =
    negb ((daily (snd (check_quota_at self now q)) >=? daily_limit self)
          || (per_minute (snd (check_quota_at self now q)) >=? minute_limit self)).
Proof.
  unfold check_quota_at. cbv zeta.
  set (q1 := if date now >? date (last_reset q) then _ else q).
  destruct (daily q1 >=? daily_limit self) eqn:Hd; simpl; [by rewrite Hd|].
  set (q2 := if now - default now (minute_reset q1) >? _ then _ else q1).
  assert (daily q2 = daily q1) as Hq2 by (subst q2; by case_match).
  destruct (per_minute q2 >=? minute_limit self) eqn:Hm; simpl;
    by rewrite Hq2, Hd, Hm.
Qed.

Lemma check_quota_at_true now q :
  fst (check_quota_at self now q) = true ->
  daily (snd (check_quota_at self now q)) < daily_limit self /\
  per_minute (snd (check_quota_at self now q)) < minute_limit self.
Proof.
  rewrite check_quota_at_answer, negb_true_iff, orb_false_iff.
  intros [Hd Hm]. zbool. lia.
Qed.

(** [check_quota] leaves each counter as it was or at zero. *)
Lemma check_quota_at_counters now q :
  (daily (snd (check_quota_at self now q)) = daily q \/
   daily (snd (check_quota_at self now q)) = 0) /\
  (per_minute (snd (check_quota_at self now q)) = per_minute q \/
   per_minute (snd (check_quota_at self now q)) = 0).
Proof. quota_cases; auto. Qed.


Lemma check_quota_at_within now q :
  0 <= daily_limit self -> 0 <= minute_limit self ->
  within_limits self q ->
  within_limits self (snd (check_quota_at self now q)).
Proof.
  intros HD HM [Hd Hm]. unfold within_limits.
  destruct (check_quota_at_counters now q) as [[-> | ->] [-> | ->]]; lia.
Qed.

(** The day rollover: a later date zeroes the daily counter and moves the
    reset date to [now]; the same or an earlier date leaves both. *)
Lemma check_quota_at_day_rollover now q :
  date (last_reset q) < date now ->
  daily (snd (check_quota_at self now q)) = 0 /\
  last_reset (snd (check_quota_at self now q)) = now.
Proof. intros Hd. quota_cases; try lia; done. Qed.

Lemma check_quota_at_same_day now q :
  date now <= date (last_reset q) ->
  daily (snd (check_quota_at self now q)) = daily q /\
  last_reset (snd (check_quota_at self now q)) = last_reset q.
Proof. intros Hd. quota_cases; try lia; done. Qed.

(** The minute rollover, when a window start is stored and the daily
    limit is not reached. *)
Lemma check_quota_at_minute_rollover now q start :
  minute_reset q = Some start ->
  daily (snd (check_quota_at self now q)) < daily_limit self ->
  timedelta_minutes 1 < now - start ->
  per_minute (snd (check_quota_at self now q)) = 0 /\
  minute_reset (snd (check_quota_at self now q)) = Some now.
Proof.
  intros Hs. unfold check_quota_at.
  set (q1 := if date now >? date (last_reset q) then _ else q).
  assert (minute_reset q1 = Some start) as Hq1
    by (subst q1; case_match; simpl; done).
  destruct (daily q1 >=? daily_limit self) eqn:Hd; simpl.
  - zbool. lia.
  - rewrite Hq1. simpl. intros _ Hlt.
    apply Z.gtb_lt in Hlt. rewrite Hlt. by case_match.
Qed.

(** No window start stored: the per-minute counter is never reset. *)
Lemma check_quota_at_no_window now q :
  minute_reset q = None ->
  per_minute (snd (check_quota_at self now q)) = per_minute q /\
  minute_reset (snd (check_quota_at self now q)) = None.
Proof.
  intros Hs. unfold check_quota_at.
  set (q1 := if date now >? date (last_reset q) then _ else q).
  assert (minute_reset q1 = None /\ per_minute q1 = per_minute q) as [Hq1 Hp]
    by (subst q1; case_match; simpl; done).
  destruct (daily q1 >=? daily_limit self); simpl; [done|].
  rewrite Hq1. simpl. rewrite Z.sub_diag. simpl.
  by case_match.
Qed.

Lemma quota_step_inv op st :
  0 <= daily_limit self -> 0 <= minute_limit self ->
  quota_inv self st ->
  match op with OpUpdate => fst st = true | _ => True end ->
  quota_inv self (quota_step self op st).
Proof.
  intros HD HM [Hw Hf] Hop. destruct op as [now| |now]; simpl.
  - split; [by apply check_quota_at_within | apply check_quota_at_true].
  - destruct (Hf Hop) as [Hd Hm]. split; [|done].
    unfold within_limits, update_quota_of. simpl. lia.
  - destruct Hw as [Hd Hm]. split; [|done].
    unfold within_limits, throttle_reset. simpl. lia.
Qed.

Lemma quota_states_inv ops : forall st,
  0 <= daily_limit self -> 0 <= minute_limit self ->
  quota_inv self st ->
  checked_before_update self ops st = true ->
  Forall (within_limits self) (quota_states self ops st).
Proof.
  induction ops as [|op ops IH]; intros st HD HM Hinv Hchk; simpl; [constructor|].
  simpl in Hchk. apply andb_true_iff in Hchk as [Hop Hrest].
  assert (quota_inv self (quota_step self op st)) as Hnext.
  { apply quota_step_inv; try done. destruct op; done. }
  constructor; [apply Hnext | by apply IH].
Qed.
End QuotaTracker.

(** C2: in every sequence of quota operations in which each [update_quota]
    comes right after a [check_quota] that returned true, started within the
    limits, the daily counter never exceeds 2000 and the per-minute counter
    never exceeds 600, at any point of the sequence. *)
Theorem quota_counters_never_exceed_limits (ops : list quota_op) (q : quota_usage) :
  within_limits GSCInspector_init q ->
  checked_before_update GSCInspector_init ops (false, q) = true ->
  Forall (fun q' => daily q' <= 2000 /\ per_minute q' <= 600)
    (quota_states GSCInspector_init ops (false, q)).
Proof.
  intros Hq Hops.
  apply (quota_states_inv GSCInspector_init ops (false, q)); simpl; try lia; done.
Qed.

Lemma quota_counters_never_exceed_limits_witness :
  Forall (fun q' => daily q' <= 2000 /\ per_minute q' <= 600)
    (quota_states GSCInspector_init
       [OpCheck 1; OpUpdate; OpCheck 2; OpThrottle 3; OpCheck 4; OpUpdate]
       (false, QuotaUsage 1998 599 0 None)).
Proof.
  apply quota_counters_never_exceed_limits.
  - unfold within_limits. simpl. lia.
  - reflexivity.
Defined.




(** C7: the session starts without a minute-window start, and [check_quota]
    never stores one; so the per-minute counter of one inspection is still 1
    at a check made two minutes later, with no call in between. *)
Theorem minute_counter_survives_idle_minutes :
  quota_states GSCInspector_init
    [OpCheck (timedelta_seconds 1); OpUpdate; OpCheck (timedelta_seconds 121)]
    (false, initial_quota_usage 0)
  = [QuotaUsage 0 0 0 None; QuotaUsage 1 1 0 None; QuotaUsage 1 1 0 None].
Proof. reflexivity. Qed.

(** With the daily limit reached, [check_quota] returns before the minute
    rollover: the per-minute counter stays although its window is over. *)
Lemma minute_rollover_skipped_at_daily_limit :
  check_quota_at GSCInspector_init (timedelta_seconds 200)
    (QuotaUsage 2000 40 0 (Some (timedelta_seconds 100)))
  = (false, QuotaUsage 2000 40 0 (Some (timedelta_seconds 100))).
Proof. reflexivity. Qed.

(** ** Result normaliser *)

Section Normaliser.

Lemma py_in_dict k d :
  py_in k (JDict d) = Ok (bool_decide (is_Some (dict_lookup k d))).
Proof. reflexivity. Qed.

Lemma dict_lookup_present k d :
  bool_decide (is_Some (dict_lookup k d)) = true ->
  exists v, dict_lookup k d = Some v.
Proof. intros [v Hv]%bool_decide_eq_true. by exists v. Qed.

Lemma dict_lookup_absent k d :
  dict_lookup k d = None -> bool_decide (is_Some (dict_lookup k d)) = false.
Proof. intros ->. apply bool_decide_eq_false. by intros [v Hv]. Qed.

(** A section that is a dictionary when present is read without error. *)
Lemma parse_index_status_total d p :
  section_ok d "indexStatusResult" is_dict = true ->
  exists p', parse_index_status (JDict d) p = Ok p'.
Proof.
  unfold section_ok, parse_index_status. rewrite py_in_dict.
  destruct (dict_lookup "indexStatusResult" d) as [v|] eqn:Hv; simpl.
  - intros Hshape. rewrite Hv. simpl.
    destruct v; try discriminate. simpl. eauto.
  - intros _. eauto.
Qed.

Lemma parse_mobile_usability_total d p :
  section_ok d "mobileUsabilityResult" is_dict = true ->
  exists p', parse_mobile_usability (JDict d) p = Ok p'.
Proof.
  unfold section_ok, parse_mobile_usability. rewrite py_in_dict.
  destruct (dict_lookup "mobileUsabilityResult" d) as [v|] eqn:Hv; simpl.
  - intros Hshape. rewrite Hv. simpl.
    destruct v; try discriminate. simpl. eauto.
  - intros _. eauto.
Qed.

(** The types of shaped items are read without error, and are strings. *)
Lemma py_map_rich_result_types items :
  forallb item_shaped items = true ->
  exists types,
    py_map (fun item => py_get item "richResultType" empty_str) items = Ok types
    /\ Forall (fun t => exists s, t = JStr s) types.
Proof.
  induction items as [|item items IH]; simpl.
  - intros _. exists []. by split.
  - intros [Hitem Hrest]%andb_true_iff.
    destruct (IH Hrest) as (types & Hmap & Hstr).
    destruct item; try discriminate. simpl.
    unfold dict_get. simpl in Hitem.
    destruct (dict_lookup "richResultType" items0) as [t|]; simpl.
    + destruct t; try discriminate.
      rewrite Hmap. simpl. eexists. split; [done|]. constructor; eauto.
    + rewrite Hmap. simpl. eexists. split; [done|].
      constructor; [by exists ""|done].
Qed.

Lemma py_join_from_strings sep types :
  Forall (fun t => exists s, t = JStr s) types ->
  forall i, exists joined, py_join_from i sep types = Ok joined.
Proof.
  induction 1 as [|t types [s ->] _ IH]; intros i; simpl; [eauto|].
  destruct (IH (S i)) as [joined Hj]. destruct types; [eauto|].
  rewrite Hj. simpl. eauto.
Qed.

Lemma py_join_strings sep types :
  Forall (fun t => exists s, t = JStr s) types ->
  exists joined, py_join sep types = Ok joined.
Proof. intros Hstr. by apply py_join_from_strings. Qed.

Lemma parse_rich_results_total d p :
  section_ok d "richResultsResult" rich_results_shaped = true ->
  exists p', parse_rich_results (JDict d) p = Ok p'.
Proof.
  unfold section_ok, parse_rich_results. rewrite py_in_dict.
  destruct (dict_lookup "richResultsResult" d) as [v|] eqn:Hv; simpl;
    [|intros _; eauto].
  intros Hshape. rewrite Hv. simpl.
  destruct v as [| | | | |?|rr]; try discriminate. simpl. simpl in Hshape.
  assert (exists items, dict_get rr "detectedItems" (JList []) = JList items
                        /\ forallb item_shaped items = true)
    as (items & -> & Hitems).
  { unfold dict_get.
    destruct (dict_lookup "detectedItems" rr) as [di|]; simpl.
    - destruct di; try discriminate. eauto.
    - by exists []. }
  simpl.
  destruct (py_map_rich_result_types items Hitems) as (types & -> & Hstr).
  simpl. destruct (py_join_strings ", " types Hstr) as [joined ->].
  simpl. eauto.
Qed.

(** On a response of the service's shape the normaliser returns. *)
Lemma parse_inspection_result_shaped outcome :
  response_shaped (dict_get outcome "data" (JDict [])) = true ->
  exists r, parse_inspection_result outcome = Ok r.
Proof.
  unfold parse_inspection_result, response_shaped, section_ok.
  destruct (dict_get outcome "data" (JDict [])) as [| | | | |?|d] eqn:Hdata;
    try discriminate.
  rewrite py_in_dict.
  destruct (dict_lookup "inspectionResult" d) as [insp|] eqn:Hinsp; simpl;
    [|intros _; eauto].
  intros Hshape. unfold dict_get in Hdata.
  destruct (dict_lookup "data" outcome) as [dv|] eqn:Hdv; simpl in Hdata;
    [subst dv | by inversion Hdata; subst].
  simpl. rewrite Hinsp. simpl.
  destruct insp as [| | | | |?|di]; try discriminate. simpl. simpl in Hshape.
  apply andb_true_iff in Hshape as [[Hidx Hmob]%andb_true_iff Hrich].
  edestruct (parse_index_status_total di) as [p1 ->]; [done|]. simpl.
  edestruct (parse_mobile_usability_total di) as [p2 ->]; [done|]. simpl.
  by apply parse_rich_results_total.
Qed.

(** A response without [inspectionResult] gives the blank record. *)
Lemma parse_inspection_result_blank outcome d :
  dict_get outcome "data" (JDict []) = JDict d ->
  dict_lookup "inspectionResult" d = None ->
  parse_inspection_result outcome = Ok (blank_record (dict_get outcome "url" empty_str)).
Proof.
  intros Hdata Hnone. unfold parse_inspection_result.
  rewrite Hdata, py_in_dict, (dict_lookup_absent _ _ Hnone). reflexivity.
Qed.
End Normaliser.

(** C8, as the code has it: [parse_inspection_result] returns on every
    outcome whose raw response has the shape of the service's responses;
    and for an outcome whose raw response omits [inspectionResult], and with
    it every nested section, every field of the flat record is the empty
    string except [inspection_url], which is the URL of the outcome. *)
Theorem parse_inspection_result_total_blank (outcome : list (string * json)) :
  (response_shaped (dict_get outcome "data" (JDict [])) = true ->
   exists r, parse_inspection_result outcome = Ok r)
  /\ (forall d,
        dict_get outcome "data" (JDict []) = JDict d ->
        dict_lookup "inspectionResult" d = None ->
        parse_inspection_result outcome
        = Ok (FlatRecord (dict_get outcome "url" empty_str)
                (JStr "") (JStr "") (JStr "") (JStr "") (JStr "") (JStr "") (JStr "")
                (JStr "") (JStr "") (JStr "") (JStr "") (JStr "") (JStr ""))).
Proof.
  split; [apply parse_inspection_result_shaped|].
  intros d Hdata Hnone. by rewrite (parse_inspection_result_blank outcome d).
Qed.

Lemma parse_inspection_result_total_blank_witness :
  (exists r,
     parse_inspection_result
       (success_outcome "https://a.com/1"
          (JDict [("inspectionResult",
                   JDict [("indexStatusResult",
                           JDict [("coverageState", JStr "Submitted and indexed")]);
                          ("richResultsResult",
                           JDict [("detectedItems",
                                   JList [JDict [("richResultType", JStr "FAQ")];
                                          JDict []])])])])
          "2024-05-01T10:00:00") = Ok r)
  /\ parse_inspection_result (error_outcome "https://a.com/2" "API Error: x" "t")
     = Ok (blank_record (JStr "https://a.com/2")).
Proof.
  split.
  - apply parse_inspection_result_total_blank. reflexivity.
  - eapply parse_inspection_result_total_blank; reflexivity.
Defined.

(** C8 as stated fails: the raw response omits every section, and the field
    [inspection_url] of the flat record is the URL, not the empty string. *)
Lemma parse_inspection_result_keeps_url :
  exists r,
    parse_inspection_result (success_outcome "https://a.com/1" (JDict []) "2024-05-01T10:00:00")
    = Ok r
    /\ inspection_url r = JStr "https://a.com/1"
    /\ inspection_url r <> JStr "".
Proof. eexists. split; [reflexivity|]. split; [reflexivity | discriminate]. Qed.

(** The normaliser on a full response. *)
Example parse_inspection_result_full :
  parse_inspection_result
    (success_outcome "https://a.com/1"
       (JDict [("inspectionResult",
                JDict [("inspectionResultLink", JStr "https://search.google.com/x");
                       ("indexStatusResult",
                        JDict [("verdict", JStr "PASS");
                               ("coverageState", JStr "Submitted and indexed");
                               ("crawledAs", JStr "MOBILE")]);
                       ("mobileUsabilityResult", JDict [("verdict", JStr "PASS")]);
                       ("richResultsResult",
                        JDict [("verdict", JStr "PASS");
                               ("detectedItems",
                                JList [JDict [("richResultType", JStr "FAQ")];
                                       JDict [("richResultType", JStr "Breadcrumbs")]])])])])
       "2024-05-01T10:00:00")
  = Ok (FlatRecord (JStr "https://a.com/1") (JStr "https://search.google.com/x")
          (JStr "PASS") (JStr "Submitted and indexed") (JStr "") (JStr "") (JStr "")
          (JStr "") (JStr "") (JStr "") (JStr "PASS") (JStr "PASS")
          (JStr "FAQ, Breadcrumbs") (JStr "MOBILE")).
Proof. reflexivity. Qed.

(** Outside the service's shape the normaliser raises: a section that is
    [null], a type of a detected item that is not a string. *)
Example parse_inspection_result_null_section :
  parse_inspection_result
    (success_outcome "https://a.com/1" (JDict [("inspectionResult", JNull)]) "t")
  = Raise (AttributeError "'NoneType' object has no attribute 'get'").
Proof. reflexivity. Qed.

Example parse_inspection_result_numeric_type :
  parse_inspection_result
    (success_outcome "https://a.com/1"
       (JDict [("inspectionResult",
                JDict [("richResultsResult",
                        JDict [("detectedItems",
                                JList [JDict [("richResultType", JInt 3)]])])])])
       "t")
  = Raise (TypeError "sequence item 0: expected str instance, int found").
Proof. reflexivity. Qed.

(** ** Inspection client *)

Ltac run_M :=
  unfold try_except_HttpError, try_except_Exception, raise, lift_result,
    update_quota, check_quota, get_quota, put_quota, get_cache, put_cache,
    time_sleep, emit, datetime_now, service_inspect, tick,
    mbind, mret, M_bind, M_ret in *;
  simpl in *.

Section Inspector.
Variable w : world.
Variable self : GSCInspector.
Variables site_url inspection_url : string.

Let key := get_cache_key w site_url inspection_url.

(** The session after a quota check that reads the clock of [s]. *)
Let checked (s : session) : bool * quota_usage :=
  check_quota_at self (clock w (ticks s)) (quota s).

(** The cache test: only a stored entry costs a reading of the clock. *)
Lemma cache_probe_off s : cache_probe w key false s = (Ok None, s).
Proof. reflexivity. Qed.

Lemma cache_probe_absent s :
  cache s !! key = None -> cache_probe w key true s = (Ok None, s).
Proof. intros H. unfold cache_probe. run_M. by rewrite H. Qed.

Lemma cache_probe_fresh s entry :
  cache s !! key = Some entry ->
  clock w (ticks s) - timestamp entry < timedelta_hours 24 ->
  cache_probe w key true s = (Ok (Some (data entry)), tick s).
Proof.
  intros H Hlt. unfold cache_probe. run_M. rewrite H.
  apply Z.ltb_lt in Hlt. by rewrite Hlt.
Qed.

Lemma cache_probe_stale s entry :
  cache s !! key = Some entry ->
  timedelta_hours 24 <= clock w (ticks s) - timestamp entry ->
  cache_probe w key true s = (Ok None, tick s).
Proof.
  intros H Hge. unfold cache_probe. run_M. rewrite H.
  apply Z.ltb_ge in Hge. by rewrite Hge.
Qed.

(** [inspect_url] after its cache test. *)
Lemma inspect_url_probe use_cache s :
  inspect_url w self site_url inspection_url use_cache s =
    match cache_probe w key use_cache s with
    | (Ok (Some cached), s1) => (Ok cached, s1)
    | (Ok None, s1) => inspect_url w self site_url inspection_url false s1
    | (Raise e, s1) => (Raise e, s1)
    end.
Proof.
  unfold inspect_url at 1. fold key. unfold mbind at 1, M_bind at 1.
  destruct (cache_probe w key use_cache s) as [[[cached|]|e] s1]; reflexivity.
Qed.

(** A fresh entry is returned at once: nothing but the clock moves. *)
Lemma inspect_url_hit s entry :
  cache s !! key = Some entry ->
  clock w (ticks s) - timestamp entry < timedelta_hours 24 ->
  inspect_url w self site_url inspection_url true s = (Ok (data entry), tick s).
Proof.
  intros H Hlt. by rewrite inspect_url_probe, (cache_probe_fresh s entry).
Qed.

(** A stale entry, or none, is a miss: the call goes on as one that was
    told not to use the cache. *)
Lemma inspect_url_stale s entry :
  cache s !! key = Some entry ->
  timedelta_hours 24 <= clock w (ticks s) - timestamp entry ->
  inspect_url w self site_url inspection_url true s
  = inspect_url w self site_url inspection_url false (tick s).
Proof.
  intros H Hge. by rewrite inspect_url_probe, (cache_probe_stale s entry).
Qed.

Lemma inspect_url_absent s :
  cache s !! key = None ->
  inspect_url w self site_url inspection_url true s
  = inspect_url w self site_url inspection_url false s.
Proof.
  intros H. by rewrite inspect_url_probe, cache_probe_absent.
Qed.

(** The handler of [HttpError] always raises, and touches no state. *)
Lemma api_error_raises content s :
  exists e, api_error w content s = (Raise e, s).
Proof.
  unfold api_error. run_M.
  destruct (json_loads content) as [v|e]; simpl; [|eauto].
  destruct (py_get v "error" (JDict [])) as [err|e]; simpl; [|eauto].
  destruct (py_get err "message" (JStr "Unknown error")) as [m|e]; simpl; eauto.
Qed.

(** The three ways of a call that does not use the cache. *)
Lemma inspect_url_quota_reached s :
  fst (checked s) = false ->
  inspect_url w self site_url inspection_url false s
  = (Raise (Exception "Quota limit reached. Please try again later."),
     Session (snd (checked s)) (cache s) (S (ticks s)) (calls s) (trace s)).
Proof.
  unfold checked. intros Hc. unfold inspect_url, cache_probe. run_M.
  by rewrite Hc.
Qed.

Lemma inspect_url_remote_ok s response :
  fst (checked s) = true ->
  execute w (calls s) site_url inspection_url "en-US" = Ok response ->
  inspect_url w self site_url inspection_url false s
  = (Ok response,
     Session (update_quota_of (snd (checked s)))
       (<[key := CachedData response (clock w (S (ticks s)))]> (cache s))
       (S (S (ticks s))) (S (calls s))
       (trace s ++ [EvInspect site_url inspection_url "en-US"])).
Proof.
  unfold checked. intros Hc He. unfold inspect_url, cache_probe. run_M.
  rewrite Hc. simpl. by rewrite He.
Qed.

Lemma inspect_url_remote_raise s e :
  fst (checked s) = true ->
  execute w (calls s) site_url inspection_url "en-US" = Raise e ->
  exists e',
    inspect_url w self site_url inspection_url false s
    = (Raise e',
       Session (snd (checked s)) (cache s) (S (ticks s)) (S (calls s))
         (trace s ++ [EvInspect site_url inspection_url "en-US"])).
Proof.
  unfold checked. intros Hc He. unfold inspect_url, cache_probe. run_M.
  rewrite Hc. simpl. rewrite He.
  destruct e; eauto.
  apply api_error_raises.
Qed.

(** A call that does not use the cache and raises has left the cache as
    it was and the quota as the check left it. *)
Lemma inspect_url_nocache_failure s e s' :
  inspect_url w self site_url inspection_url false s = (Raise e, s') ->
  cache s' = cache s /\ quota s' = snd (checked s).
Proof.
  destruct (fst (checked s)) eqn:Hc.
  - destruct (execute w (calls s) site_url inspection_url "en-US") as [r|e0] eqn:He.
    + rewrite (inspect_url_remote_ok s r Hc He). discriminate.
    + destruct (inspect_url_remote_raise s e0 Hc He) as [e' ->].
      intros [= <- <-]. done.
  - rewrite (inspect_url_quota_reached s Hc). intros [= <- <-]. done.
Qed.

(** A call that returns has either answered from a fresh entry, with the
    remote service and the quota untouched, or called the service once
    and spent quota once. *)
Lemma inspect_url_nocache_success s response s' :
  inspect_url w self site_url inspection_url false s = (Ok response, s') ->
  fst (checked s) = true /\
  execute w (calls s) site_url inspection_url "en-US" = Ok response.
Proof.
  destruct (fst (checked s)) eqn:Hc.
  - destruct (execute w (calls s) site_url inspection_url "en-US") as [r|e0] eqn:He.
    + rewrite (inspect_url_remote_ok s r Hc He). by intros [= <- <-].
    + destruct (inspect_url_remote_raise s e0 Hc He) as [e' ->]. discriminate.
  - rewrite (inspect_url_quota_reached s Hc). discriminate.
Qed.

(** The outcomes of the cache test. *)
Lemma cache_probe_cases use_cache s :
  cache_probe w key use_cache s = (Ok None, s)
  \/ cache_probe w key use_cache s = (Ok None, tick s)
  \/ exists entry,
       cache s !! key = Some entry
       /\ clock w (ticks s) - timestamp entry < timedelta_hours 24
       /\ cache_probe w key use_cache s = (Ok (Some (data entry)), tick s).
Proof.
  destruct use_cache; [|left; apply cache_probe_off].
  destruct (cache s !! key) as [entry|] eqn:Hk; [|left; by apply cache_probe_absent].
  destruct (Z.lt_ge_cases (clock w (ticks s) - timestamp entry) (timedelta_hours 24)).
  - right; right. exists entry. by rewrite (cache_probe_fresh s entry).
  - right; left. by apply (cache_probe_stale s entry).
Qed.

(** A call that raises has left the cache as it was, and the quota as
    its quota check left it. *)
Lemma inspect_url_failure use_cache s e s' :
  inspect_url w self site_url inspection_url use_cache s = (Raise e, s') ->
  cache s' = cache s /\
  exists now, quota s' = snd (check_quota_at self now (quota s)).
Proof.
  rewrite inspect_url_probe.
  destruct (cache_probe_cases use_cache s) as [-> | [-> | (entry & _ & _ & ->)]];
    [| |discriminate].
  - intros [Hc Hq]%inspect_url_nocache_failure. split; [done|].
    by exists (clock w (ticks s)).
  - intros [Hc Hq]%inspect_url_nocache_failure. split; [done|].
    by exists (clock w (S (ticks s))).
Qed.

(** A call that returns and has called the service: its cache test found
    no fresh entry, the quota check passed, the service answered, and the
    session is the one of [inspect_url_remote_ok]. *)
Lemma inspect_url_success_remote s response s' :
  inspect_url w self site_url inspection_url true s = (Ok response, s') ->
  calls s' = S (calls s) ->
  exists sm,
    (sm = s \/ sm = tick s)
    /\ fst (checked sm) = true
    /\ execute w (calls s) site_url inspection_url "en-US" = Ok response
    /\ s' = Session (update_quota_of (snd (checked sm)))
              (<[key := CachedData response (clock w (S (ticks sm)))]> (cache s))
              (S (S (ticks sm))) (S (calls s))
              (trace s ++ [EvInspect site_url inspection_url "en-US"]).
Proof.
  rewrite inspect_url_probe.
  destruct (cache_probe_cases true s) as [-> | [-> | (entry & _ & _ & ->)]].
  - intros Hrun _. exists s.
    destruct (inspect_url_nocache_success s response s' Hrun) as [Hc He].
    rewrite (inspect_url_remote_ok s response Hc He) in Hrun.
    injection Hrun as <-. auto.
  - intros Hrun _. exists (tick s).
    destruct (inspect_url_nocache_success (tick s) response s' Hrun) as [Hc He].
    rewrite (inspect_url_remote_ok (tick s) response Hc He) in Hrun.
    injection Hrun as <-. auto.
  - intros [= <- <-]. simpl. lia.
Qed.

(** [inspect_url] keeps the counters within the limits: it increments them
    only after its own quota check has passed. *)
Lemma inspect_url_nocache_within s :
  0 <= daily_limit self -> 0 <= minute_limit self ->
  within_limits self (quota s) ->
  within_limits self (quota (snd (inspect_url w self site_url inspection_url false s))).
Proof.
  intros HD HM Hs.
  assert (within_limits self (snd (checked s))) as Hw
    by (by apply check_quota_at_within).
  destruct (fst (checked s)) eqn:Hc.
  - destruct (execute w (calls s) site_url inspection_url "en-US") as [r|e] eqn:He.
    + rewrite (inspect_url_remote_ok s r Hc He). simpl.
      destruct (check_quota_at_true self _ _ Hc) as [Hd Hm].
      unfold within_limits, update_quota_of, checked in *. simpl. lia.
    + by destruct (inspect_url_remote_raise s e Hc He) as [e' ->].
  - by rewrite (inspect_url_quota_reached s Hc).
Qed.

Lemma inspect_url_within use_cache s :
  0 <= daily_limit self -> 0 <= minute_limit self ->
  within_limits self (quota s) ->
  within_limits self (quota (snd (inspect_url w self site_url inspection_url use_cache s))).
Proof.
  intros HD HM Hs. rewrite inspect_url_probe.
  destruct (cache_probe_cases use_cache s) as [-> | [-> | (entry & _ & _ & ->)]].
  - by apply inspect_url_nocache_within.
  - by apply inspect_url_nocache_within.
  - done.
Qed.
End Inspector.

(** C10: when [inspect_url] raises, for the quota or for the remote service,
    the cache is the mapping it was, a stale entry of the same key included,
    and the quota is what the rollover check of the call left: neither
    counter was incremented, each is as before or reset to zero. *)
Theorem inspect_url_failure_frame (w : world) (self : GSCInspector)
    (site_url inspection_url : string) (use_cache : bool) (s s' : session) (e : exn) :
  inspect_url w self site_url inspection_url use_cache s = (Raise e, s') ->
  cache s' = cache s
  /\ (exists now, quota s' = snd (check_quota_at self now (quota s)))
  /\ (daily (quota s') = daily (quota s) \/ daily (quota s') = 0)
  /\ (per_minute (quota s') = per_minute (quota s) \/ per_minute (quota s') = 0).
Proof.
  intros Hrun.
  destruct (inspect_url_failure w self site_url inspection_url use_cache s e s' Hrun)
    as [Hcache [now Hq]].
  split; [done|]. split; [by exists now|].
  rewrite Hq. apply check_quota_at_counters.
Qed.

Lemma inspect_url_failure_frame_witness :
  let w := sample_world (clock_of [] (timedelta_hours 25))
             (always (Raise (HttpError quota_error_body "<HttpError 429>"))) in
  let s := session_with_entry (QuotaUsage 3 3 0 None) (CachedData indexed_response 0) in
  let s' := snd (inspect_url w GSCInspector_init site_a url_1 true s) in
  fst (inspect_url w GSCInspector_init site_a url_1 true s)
  = Raise (Exception "API Error: Quota exceeded")
  /\ cache s' = cache s
  /\ (exists now, quota s' = snd (check_quota_at GSCInspector_init now (quota s)))
  /\ (daily (quota s') = daily (quota s) \/ daily (quota s') = 0)
  /\ (per_minute (quota s') = per_minute (quota s) \/ per_minute (quota s') = 0).
Proof.
  intros w s s'. split; [reflexivity|].
  apply (inspect_url_failure_frame w GSCInspector_init site_a url_1 true s s'
           (Exception "API Error: Quota exceeded")).
  reflexivity.
Defined.

(** C3, as the code has it: two calls of [inspect_url] for the same site
    and URL, the cache in
    use, the first of which called the service and returned [first].  The
    first call stored [first] with the time [stored] and spent quota once.
    If at the second call the entry is younger than 24 hours, the second
    call returns [first] and changes nothing but the count of clock
    readings: no remote call, no quota increment.  If the entry is 24 hours
    old or older, the second call proceeds as one that does not use the
    cache: with the quota check passed and the service answering [second],
    it calls the service once more, increments both counters once more and
    stores [second]. *)
Theorem inspect_url_twice (w : world) (self : GSCInspector)
    (site_url inspection_url : string) (s0 s1 : session) (first : json) :
  inspect_url w self site_url inspection_url true s0 = (Ok first, s1) ->
  calls s1 = S (calls s0) ->
  exists stored,
    cache s1 !! get_cache_key w site_url inspection_url = Some (CachedData first stored)
    /\ (exists now, quota s1 = update_quota_of (snd (check_quota_at self now (quota s0))))
    /\ (clock w (ticks s1) - stored < timedelta_hours 24 ->
        inspect_url w self site_url inspection_url true s1
        = (Ok first, Session (quota s1) (cache s1) (S (ticks s1)) (calls s1) (trace s1)))
    /\ (timedelta_hours 24 <= clock w (ticks s1) - stored ->
        inspect_url w self site_url inspection_url true s1
        = inspect_url w self site_url inspection_url false (tick s1)
        /\ forall second,
             fst (check_quota_at self (clock w (S (ticks s1))) (quota s1)) = true ->
             execute w (calls s1) site_url inspection_url "en-US" = Ok second ->
             inspect_url w self site_url inspection_url true s1
             = (Ok second,
                Session
                  (update_quota_of
                     (snd (check_quota_at self (clock w (S (ticks s1))) (quota s1))))
                  (<[get_cache_key w site_url inspection_url :=
                       CachedData second (clock w (S (S (ticks s1))))]> (cache s1))
                  (S (S (S (ticks s1)))) (S (calls s1))
                  (trace s1 ++ [EvInspect site_url inspection_url "en-US"]))).
Proof.
  intros Hfirst Hcalls.
  destruct (inspect_url_success_remote w self site_url inspection_url s0 first s1
              Hfirst Hcalls) as (sm & Hsm & Hchk & Hexec & Hs1).
  set (entry := CachedData first (clock w (S (ticks sm)))).
  assert (cache s1 !! get_cache_key w site_url inspection_url = Some entry) as Hentry
    by (rewrite Hs1; apply lookup_insert_eq).
  exists (clock w (S (ticks sm))).
  split; [done|]. split.
  { exists (clock w (ticks sm)). rewrite Hs1. by destruct Hsm as [-> | ->]. }
  split.
  - intros Hfresh.
    exact (inspect_url_hit w self site_url inspection_url s1 entry Hentry Hfresh).
  - intros Hstale.
    rewrite (inspect_url_stale w self site_url inspection_url s1 entry Hentry Hstale).
    split; [done|]. intros second Hpass Hanswer.
    exact (inspect_url_remote_ok w self site_url inspection_url (tick s1) second
             Hpass Hanswer).
Qed.

(** The two cases of C3 on a run: the second reading of the clock is the
    time stored with the entry; the third is the time of the second call. *)
Lemma inspect_url_twice_witness :
  let fresh_world := sample_world
    (clock_of [timedelta_seconds 1; timedelta_seconds 2] (timedelta_hours 23))
    (fun n _ _ _ => if decide (n = 0%nat) then Ok indexed_response else Ok crawled_response) in
  let stale_world := sample_world
    (clock_of [timedelta_seconds 1; timedelta_seconds 2]
       (timedelta_seconds 2 + timedelta_hours 24))
    (fun n _ _ _ => if decide (n = 0%nat) then Ok indexed_response else Ok crawled_response) in
  let s1 := snd (inspect_url fresh_world GSCInspector_init site_a url_1 true (initial_session 0)) in
  let s1' := snd (inspect_url stale_world GSCInspector_init site_a url_1 true (initial_session 0)) in
  (fst (inspect_url fresh_world GSCInspector_init site_a url_1 true s1) = Ok indexed_response
   /\ quota (snd (inspect_url fresh_world GSCInspector_init site_a url_1 true s1))
      = QuotaUsage 1 1 0 None
   /\ calls (snd (inspect_url fresh_world GSCInspector_init site_a url_1 true s1)) = 1%nat)
  /\ (fst (inspect_url stale_world GSCInspector_init site_a url_1 true s1') = Ok crawled_response
      /\ daily (quota (snd (inspect_url stale_world GSCInspector_init site_a url_1 true s1')))
         = 1
      /\ per_minute (quota (snd (inspect_url stale_world GSCInspector_init site_a url_1 true s1')))
         = 2
      /\ calls (snd (inspect_url stale_world GSCInspector_init site_a url_1 true s1')) = 2%nat).
Proof.
  intros fresh_world stale_world s1 s1'. split.
  - destruct (inspect_url_twice fresh_world GSCInspector_init site_a url_1
                (initial_session 0) s1 indexed_response eq_refl eq_refl)
      as (stored & Hentry & _ & Hfresh & _).
    assert (stored = timedelta_seconds 2) as -> by (vm_compute in Hentry |- *; congruence).
    rewrite Hfresh by (vm_compute; reflexivity).
    repeat split.
  - destruct (inspect_url_twice stale_world GSCInspector_init site_a url_1
                (initial_session 0) s1' indexed_response eq_refl eq_refl)
      as (stored & Hentry & _ & _ & Hstale).
    assert (stored = timedelta_seconds 2) as -> by (vm_compute in Hentry |- *; congruence).
    destruct Hstale as [_ Hsecond]; [vm_compute; discriminate|].
    rewrite (Hsecond crawled_response eq_refl eq_refl).
    repeat split.
Defined.

(** C3 as stated fails.  The entry is exactly 24 hours old at the second
    call, so it is a miss.  In the first run the service fails at the second
    call: the call is made and no counter is incremented.  In the second run
    the first call takes the per-minute count to the limit: the second call
    is refused, and the service is not called. *)
Lemma inspect_url_stale_without_increment :
  (let w := sample_world
              (clock_of [timedelta_seconds 1; timedelta_seconds 2]
                 (timedelta_seconds 2 + timedelta_hours 24))
              (fun n _ _ _ =>
                 if decide (n = 0%nat) then Ok indexed_response
                 else Raise (HttpError quota_error_body "<HttpError 429>")) in
   let first := inspect_url w GSCInspector_init site_a url_1 true (initial_session 0) in
   let second := inspect_url w GSCInspector_init site_a url_1 true (snd first) in
   fst first = Ok indexed_response
   /\ quota (snd first) = QuotaUsage 1 1 0 None
   /\ cache (snd first) !! get_cache_key w site_a url_1
      = Some (CachedData indexed_response (timedelta_seconds 2))
   /\ fst second = Raise (Exception "API Error: Quota exceeded")
   /\ calls (snd second) = 2%nat
   /\ quota (snd second)
      = QuotaUsage 0 1 (timedelta_seconds 2 + timedelta_hours 24) None)
  /\ (let w := sample_world
                 (clock_of [timedelta_seconds 1; timedelta_seconds 2]
                    (timedelta_seconds 2 + timedelta_hours 24))
                 (always (Ok indexed_response)) in
      let first := inspect_url w GSCInspector_init site_a url_1 true
                     (Session (QuotaUsage 599 599 0 None) ∅ 0 0 []) in
      let second := inspect_url w GSCInspector_init site_a url_1 true (snd first) in
      fst first = Ok indexed_response
      /\ quota (snd first) = QuotaUsage 600 600 0 None
      /\ fst second = Raise (Exception "Quota limit reached. Please try again later.")
      /\ calls (snd second) = 1%nat).
Proof. split; repeat split; reflexivity. Qed.

(** *** Remote failures *)

(** A structured error body gives the provider's message. *)
Lemma api_error_message (w : world) (s : session) (body err : list (string * json)) (msg : string) :
  dict_lookup "error" body = Some (JDict err) ->
  dict_lookup "message" err = Some (JStr msg) ->
  api_error w (BodyJson (JDict body)) s = (Raise (Exception ("API Error: " +:+ msg)), s).
Proof.
  intros Herr Hmsg. unfold api_error, dict_get. run_M. unfold dict_get.
  rewrite Herr. simpl. unfold dict_get. by rewrite Hmsg.
Qed.

(** A JSON object without [error], or whose [error] has no [message],
    gives the fallback message. *)
Lemma api_error_fallback (w : world) (s : session) (body : list (string * json)) :
  dict_lookup "error" body = None ->
  api_error w (BodyJson (JDict body)) s = (Raise (Exception "API Error: Unknown error"), s).
Proof.
  intros Herr. unfold api_error. run_M. unfold dict_get. by rewrite Herr.
Qed.

(** A body that is not JSON makes the handler itself raise. *)
Lemma api_error_not_json (w : world) (s : session) (raw reason : string) :
  api_error w (BodyNotJson raw reason) s = (Raise (JSONDecodeError reason), s).
Proof. reflexivity. Qed.

(** C5: the service answers 502 with an HTML body.  [inspect_url] raises
    the [JSONDecodeError] of its own handler, not an [Exception] with the
    fallback message. *)
Theorem inspect_url_unparseable_error_body :
  fst (inspect_url
         (sample_world (clock_of [] 0)
            (always (Raise (HttpError gateway_error_body "<HttpError 502>"))))
         GSCInspector_init site_a url_1 true (initial_session 0))
  = Raise (JSONDecodeError "Expecting value: line 1 column 1 (char 0)").
Proof. reflexivity. Qed.

(** The same with a structured body: the provider's message is carried. *)
Example inspect_url_structured_error_body :
  fst (inspect_url
         (sample_world (clock_of [] 0)
            (always (Raise (HttpError quota_error_body "<HttpError 429>"))))
         GSCInspector_init site_a url_1 true (initial_session 0))
  = Raise (Exception "API Error: Quota exceeded").
Proof. reflexivity. Qed.

(** A failure of the transport that is not an [HttpError] leaves
    [inspect_url] as it is. *)
Example inspect_url_transport_timeout :
  fst (inspect_url
         (sample_world (clock_of [] 0)
            (always (Raise (OtherError "TimeoutError" "timed out"))))
         GSCInspector_init site_a url_1 true (initial_session 0))
  = Raise (OtherError "TimeoutError" "timed out").
Proof. reflexivity. Qed.

(** ** Batch runner *)

Section BatchRunner.
Variable w : world.
Variable self : GSCInspector.
Variable site_url : string.
Variable callback : option progress_callback.

(** The session [batch_inspect] inspects a URL from: after the pause and
    the reset when the per-minute count is within 10 of the limit, the
    session as it is otherwise. *)
Let throttled (s : session) : session :=
  if per_minute (quota s) >=? minute_limit self - 10
  then Session
         (QuotaUsage (daily (quota s)) 0 (last_reset (quota s)) (Some (clock w (ticks s))))
         (cache s) (S (ticks s)) (calls s)
         (trace s ++ [EvSleep (60 * microseconds_per_second)])
  else s.

Lemma preemptive_throttle_run s :
  preemptive_throttle w self s = (Ok tt, throttled s).
Proof.
  unfold preemptive_throttle, throttled. run_M.
  by destruct (per_minute (quota s) >=? minute_limit self - 10).
Qed.

Lemma report_progress_run total i s :
  exists s', report_progress callback total i s = (Ok tt, s').
Proof. unfold report_progress. destruct callback; run_M; eauto. Qed.

(** The [try] statement without its throttle, then the callback. *)
Lemma batch_iteration_after_throttle total i url results s :
  batch_iteration w self site_url callback total i url results s
  = (results' ← try_except_Exception
                  (inspect_and_append w self site_url url results)
                  (append_error w url results);
     report_progress callback total i;;
     mret results') (throttled s).
Proof.
  unfold batch_iteration.
  unfold mbind at 1 4, M_bind at 1 4, try_except_Exception.
  unfold mbind at 1, M_bind at 1.
  by rewrite preemptive_throttle_run.
Qed.

(** One turn appends one outcome, the one of its URL: a success with the
    response of [inspect_url], or an error with the text of what it
    raised.  The turn itself returns. *)
Lemma batch_iteration_outcome total i url results s :
  exists ts s',
    batch_iteration w self site_url callback total i url results s
    = (Ok (results ++
             [match fst (inspect_url w self site_url url true (throttled s)) with
              | Ok response => success_outcome url response ts
              | Raise e => error_outcome url (exn_str e) ts
              end]), s').
Proof.
  rewrite batch_iteration_after_throttle.
  unfold inspect_and_append, append_error, report_progress. run_M.
  destruct (inspect_url w self site_url url true (throttled s)) as [[response|e] s1];
    destruct callback; simpl; eexists _, _; reflexivity.
Qed.

Lemma batch_iteration_returns total i url results s :
  exists o s',
    batch_iteration w self site_url callback total i url results s
    = (Ok (results ++ [o]), s')
    /\ outcome_for url o.
Proof.
  destruct (batch_iteration_outcome total i url results s) as (ts & s' & ->).
  eexists _, s'. split; [done|]. unfold outcome_for.
  destruct (fst _); eauto.
Qed.

(** The loop returns, having appended one outcome for each URL, in order. *)
Lemma batch_loop_returns total urls : forall i results s,
  exists outs s',
    batch_loop w self site_url callback total i urls results s
    = (Ok (results ++ outs), s')
    /\ Forall2 outcome_for urls outs.
Proof.
  induction urls as [|url rest IH]; intros i results s; simpl.
  - exists [], s. rewrite app_nil_r. by split.
  - unfold mbind, M_bind.
    destruct (batch_iteration_returns total i url results s) as (o & s1 & -> & Ho).
    destruct (IH (S i) (results ++ [o]) s1) as (outs & s' & -> & Houts).
    exists (o :: outs), s'. rewrite <- app_assoc. split; [done|].
    by constructor.
Qed.

(** The quota a turn leaves is the one its inspection leaves. *)
Lemma batch_iteration_quota total i url results s :
  quota (snd (batch_iteration w self site_url callback total i url results s))
  = quota (snd (inspect_url w self site_url url true (throttled s))).
Proof.
  rewrite batch_iteration_after_throttle.
  unfold inspect_and_append, append_error, report_progress. run_M.
  destruct (inspect_url w self site_url url true (throttled s)) as [[response|e] s1];
    destruct callback; reflexivity.
Qed.

Lemma throttled_within s :
  0 <= minute_limit self ->
  within_limits self (quota s) -> within_limits self (quota (throttled s)).
Proof.
  intros HM [Hd Hm]. unfold throttled. case_match; [|done].
  unfold within_limits. simpl. lia.
Qed.

(** [batch_inspect] keeps the counters within the limits. *)
Lemma batch_loop_within total urls : forall i results s,
  0 <= daily_limit self -> 0 <= minute_limit self ->
  within_limits self (quota s) ->
  within_limits self
    (quota (snd (batch_loop w self site_url callback total i urls results s))).
Proof.
  induction urls as [|url rest IH]; intros i results s HD HM Hs; simpl; [done|].
  unfold mbind, M_bind.
  pose proof (batch_iteration_quota total i url results s) as Hq.
  destruct (batch_iteration_returns total i url results s) as (o & s1 & Hrun & _).
  rewrite Hrun in Hq |- *. simpl in Hq.
  apply IH; [done..|]. rewrite Hq.
  apply inspect_url_within; [done..|]. by apply throttled_within.
Qed.
End BatchRunner.

(** A turn of the loop, in terms of the inspection it makes. *)
Lemma batch_iteration_run (w : world) (self : GSCInspector) (site_url : string)
    (callback : option progress_callback) (total_urls i : nat) (url : string)
    (results : list (list (string * json))) (s : session) :
  batch_iteration w self site_url callback total_urls i url results s
  = match inspect_url w self site_url url true (after_throttle w self s) with
    | (Ok response, s1) =>
        (Ok (results ++ [success_outcome url response (isoformat w (clock w (ticks s1)))]),
         Session (quota s1) (cache s1) (S (ticks s1)) (calls s1)
           ((trace s1 ++ [EvSleep inter_call_delay])
              ++ callback_events callback total_urls i))
    | (Raise e, s1) =>
        (Ok (results ++ [error_outcome url (exn_str e) (isoformat w (clock w (ticks s1)))]),
         Session (quota s1) (cache s1) (S (ticks s1)) (calls s1)
           (trace s1 ++ callback_events callback total_urls i))
    end.
Proof.
  rewrite batch_iteration_after_throttle.
  change (if per_minute (quota s) >=? minute_limit self - 10 then _ else s)
    with (after_throttle w self s).
  unfold inspect_and_append, append_error, report_progress, callback_events. run_M.
  destruct (inspect_url w self site_url url true (after_throttle w self s))
    as [[response|e] s1];
    destruct callback; simpl; rewrite ?app_nil_r; reflexivity.
Qed.




(** C9: a turn of the loop of [batch_inspect] is the inspection of its URL,
    with the outcome appended and the progress reported, run from this
    session: when the per-minute count is at or above the minute limit less
    10, the session after a pause of 60 seconds, with the per-minute count
    at zero and the window start at the clock as read after the pause;
    otherwise the session as it was, without a pause. *)
Theorem batch_iteration_preemptive_throttle (w : world) (self : GSCInspector)
    (site_url : string) (callback : option progress_callback) (total_urls i : nat)
    (url : string) (results : list (list (string * json))) (s : session) :
  batch_iteration w self site_url callback total_urls i url results s
  = (results' ← try_except_Exception
                  (inspect_and_append w self site_url url results)
                  (append_error w url results);
     report_progress callback total_urls i;;
     mret results')
      (if per_minute (quota s) >=? minute_limit self - 10
       then Session
              (QuotaUsage (daily (quota s)) 0 (last_reset (quota s))
                 (Some (clock w (ticks s))))
              (cache s) (S (ticks s)) (calls s)
              (trace s ++ [EvSleep (60 * microseconds_per_second)])
       else s).
Proof. apply batch_iteration_after_throttle. Qed.

(** The throttle on runs of one URL: at 590 calls in the window the turn
    pauses a minute before it calls the service, at 589 it does not. *)
Example batch_inspect_pauses_at_590 :
  let w := sample_world (clock_of [] (timedelta_seconds 5)) (always (Ok indexed_response)) in
  let s' := snd (batch_inspect w GSCInspector_init site_a [url_1] None
                   (Session (QuotaUsage 590 590 0 None) ∅ 0 0 [])) in
  trace s' = [EvSleep 60000000; EvInspect site_a url_1 "en-US"; EvSleep 100000]
  /\ quota s' = QuotaUsage 591 1 0 (Some (timedelta_seconds 5)).
Proof. split; reflexivity. Qed.

Example batch_inspect_no_pause_at_589 :
  let w := sample_world (clock_of [] (timedelta_seconds 5)) (always (Ok indexed_response)) in
  let s' := snd (batch_inspect w GSCInspector_init site_a [url_1] None
                   (Session (QuotaUsage 589 589 0 None) ∅ 0 0 [])) in
  trace s' = [EvInspect site_a url_1 "en-US"; EvSleep 100000]
  /\ quota s' = QuotaUsage 590 590 0 None.
Proof. split; reflexivity. Qed.

(** The mixed batch: the first URL is answered, the second fails; two
    outcomes in the order of the URLs, and one unit of quota spent. *)
Example batch_inspect_mixed :
  let w := sample_world (clock_of [] (timedelta_seconds 5))
             (fun n _ _ _ =>
                if decide (n = 0%nat) then Ok indexed_response
                else Raise (HttpError quota_error_body "<HttpError 429>")) in
  let run := batch_inspect w GSCInspector_init site_a [url_1; url_2] None (initial_session 0) in
  fst run = Ok [success_outcome url_1 indexed_response "";
                error_outcome url_2 "API Error: Quota exceeded" ""]
  /\ quota (snd run) = QuotaUsage 1 1 0 None.
Proof. split; reflexivity. Qed.

(** The duplicate URL: the second outcome comes from the cache. *)
Example batch_inspect_duplicate :
  let w := sample_world (clock_of [] (timedelta_seconds 5))
             (fun n _ _ _ =>
                if decide (n = 0%nat) then Ok indexed_response else Ok crawled_response) in
  let run := batch_inspect w GSCInspector_init site_a [url_1; url_1] None (initial_session 0) in
  fst run = Ok [success_outcome url_1 indexed_response "";
                success_outcome url_1 indexed_response ""]
  /\ quota (snd run) = QuotaUsage 1 1 0 None
  /\ calls (snd run) = 1%nat.
Proof. repeat split; reflexivity. Qed.

(** ** The driver and the cache setting *)

(** The value of the checkbox is not used by the run. *)
Lemma start_inspection_use_cache_unused (w : world) (self : GSCInspector)
    (selected_property : string) (urls : list string) (batch_size : nat)
    (delay : Z) (s : session) :
  start_inspection w self false selected_property urls batch_size delay s
  = start_inspection w self true selected_property urls batch_size delay s.
Proof. reflexivity. Qed.

(** C6: a run with the cache setting off, over a session that holds an
    entry one hour old for the URL.  The outcome carries the entry, not the
    answer the service would give, and the service is not called. *)
Theorem start_inspection_cache_off_returns_cached :
  let w := sample_world (clock_of [] (timedelta_hours 1)) (always (Ok crawled_response)) in
  let s := session_with_entry (QuotaUsage 1 1 0 None) (CachedData indexed_response 0) in
  let run := start_inspection w GSCInspector_init false site_a [url_1] 10 5 s in
  fst run = Ok [success_outcome url_1 indexed_response ""]
  /\ calls (snd run) = 0%nat
  /\ quota (snd run) = QuotaUsage 1 1 0 None.
Proof. repeat split; reflexivity. Qed.

(** The same request made of [inspect_url] with the cache off does call
    the service. *)
Example inspect_url_cache_off_calls_service :
  let w := sample_world (clock_of [] (timedelta_hours 1)) (always (Ok crawled_response)) in
  let s := session_with_entry (QuotaUsage 1 1 0 None) (CachedData indexed_response 0) in
  let run := inspect_url w GSCInspector_init site_a url_1 false s in
  fst run = Ok crawled_response /\ calls (snd run) = 1%nat.
Proof. split; reflexivity. Qed.


(** * Further properties of the code *)

(** ** Quota tracker *)

(** After a check at [now], the stored reset date is not before the date
    of [now]. *)
Lemma check_quota_at_reset_date (self : GSCInspector) (now : datetime) (q : quota_usage) :
  date now <= date (last_reset (snd (check_quota_at self now q))).
Proof.
  unfold check_quota_at.
  destruct (date now >? date (last_reset q)) eqn:Hd; simpl;
    repeat (case_match; simpl); zbool; lia.
Qed.

(** A second [check_quota] at the same instant answers as the first and
    changes nothing more: the rollovers are applied once. *)
Theorem check_quota_at_idempotent (self : GSCInspector) (now : datetime) (q : quota_usage) :
  check_quota_at self now (snd (check_quota_at self now q))
  = (fst (check_quota_at self now q), snd (check_quota_at self now q)).
Proof.
  assert (forall q', date now <= date (last_reset q') ->
                     now - default now (minute_reset q') <= timedelta_minutes 1 ->
                     check_quota_at self now q'
                     = (negb ((daily q' >=? daily_limit self)
                              || (per_minute q' >=? minute_limit self)), q')) as Hstable.
  { intros q' Hd Hm. unfold check_quota_at.
    replace (date now >? date (last_reset q')) with false
      by (symmetry; rewrite Z.gtb_ltb; apply Z.ltb_ge; lia).
    replace (now - default now (minute_reset q') >? timedelta_minutes 1) with false
      by (symmetry; rewrite Z.gtb_ltb; apply Z.ltb_ge; lia).
    destruct (daily q' >=? daily_limit self); simpl; [done|].
    by destruct (per_minute q' >=? minute_limit self). }
  unfold check_quota_at at 2 3 4. cbv zeta.
  set (q1 := if date now >? date (last_reset q) then _ else q).
  assert (date now <= date (last_reset q1)) as Hq1.
  { subst q1. destruct (date now >? date (last_reset q)) eqn:Hd; simpl; zbool; lia. }
  destruct (daily q1 >=? daily_limit self) eqn:Hdaily; simpl.
  - unfold check_quota_at.
    replace (date now >? date (last_reset q1)) with false
      by (symmetry; rewrite Z.gtb_ltb; apply Z.ltb_ge; lia).
    by rewrite Hdaily.
  - set (q2 := if now - default now (minute_reset q1) >? _ then _ else q1).
    assert (daily q2 = daily q1 /\ last_reset q2 = last_reset q1
            /\ now - default now (minute_reset q2) <= timedelta_minutes 1)
      as (Hd2 & Hl2 & Hm2).
    { subst q2.
      destruct (now - default now (minute_reset q1) >? timedelta_minutes 1) eqn:Hm;
        simpl; zbool; repeat split; try done; try lia.
      rewrite Z.sub_diag. unfold timedelta_minutes, microseconds_per_second. lia. }
    destruct (per_minute q2 >=? minute_limit self) eqn:Hminute; simpl;
      rewrite Hstable by (rewrite ?Hl2; done);
      by rewrite Hd2, Hdaily, Hminute.
Qed.

Lemma check_quota_at_refuses (self : GSCInspector) (now : datetime) (q : quota_usage) :
  daily_limit self <= daily q ->
  date now <= date (last_reset q) ->
  check_quota_at self now q = (false, q).
Proof.
  intros Hd Hdate. unfold check_quota_at.
  replace (date now >? date (last_reset q)) with false
    by (symmetry; rewrite Z.gtb_ltb; apply Z.ltb_ge; lia).
  replace (daily q >=? daily_limit self) with true
    by (symmetry; rewrite Z.geb_leb; apply Z.leb_le; lia).
  done.
Qed.

(** Once the daily limit is reached, [check_quota] refuses, and changes
    nothing, for as long as the date has not advanced. *)
Theorem check_quota_at_exhausted (self : GSCInspector) (now : datetime) (q : quota_usage) :
  daily_limit self <= daily q ->
  date now <= date (last_reset q) ->
  check_quota_at self now q = (false, q).
Proof. apply check_quota_at_refuses. Qed.

Lemma check_quota_at_exhausted_witness :
  check_quota_at GSCInspector_init (timedelta_hours 23)
    (QuotaUsage 2000 12 (timedelta_hours 1) (Some (timedelta_hours 2)))
  = (false, QuotaUsage 2000 12 (timedelta_hours 1) (Some (timedelta_hours 2))).
Proof. apply check_quota_at_exhausted; vm_compute; discriminate. Defined.

Lemma iter_update_quota (n : nat) (q : quota_usage) :
  daily (Nat.iter n update_quota_of q) = daily q + Z.of_nat n
  /\ per_minute (Nat.iter n update_quota_of q) = per_minute q + Z.of_nat n
  /\ last_reset (Nat.iter n update_quota_of q) = last_reset q
  /\ minute_reset (Nat.iter n update_quota_of q) = minute_reset q.
Proof.
  induction n as [|n (Hd & Hm & Hl & Hr)]; [simpl; repeat split; lia|].
  rewrite Nat2Z.inj_succ. simpl.
  set (q' := Nat.iter n update_quota_of q) in *.
  unfold update_quota_of. simpl. repeat split; try done; lia.
Qed.

(** The daily counter counts the calls of a day: after a check at [now1],
    [n] calls, and a check at a time [now2] of the same day or before,
    it stands [n] higher. *)
Theorem daily_counter_counts_the_day (self : GSCInspector) (now1 now2 : datetime)
    (q : quota_usage) (n : nat) :
  date now2 <= date now1 ->
  daily (snd (check_quota_at self now2
                (Nat.iter n update_quota_of (snd (check_quota_at self now1 q)))))
  = daily (snd (check_quota_at self now1 q)) + Z.of_nat n.
Proof.
  intros Hday.
  destruct (iter_update_quota n (snd (check_quota_at self now1 q))) as (Hd & _ & Hl & _).
  pose proof (check_quota_at_reset_date self now1 q) as Hreset.
  destruct (check_quota_at_same_day self now2
              (Nat.iter n update_quota_of (snd (check_quota_at self now1 q)))) as [-> _].
  - rewrite Hl. lia.
  - exact Hd.
Qed.

Lemma daily_counter_counts_the_day_witness :
  daily (snd (check_quota_at GSCInspector_init (timedelta_hours 30)
                (Nat.iter 7 update_quota_of
                   (snd (check_quota_at GSCInspector_init (timedelta_hours 25)
                           (QuotaUsage 1500 3 0 None))))))
  = daily (snd (check_quota_at GSCInspector_init (timedelta_hours 25)
                  (QuotaUsage 1500 3 0 None))) + Z.of_nat 7.
Proof. apply daily_counter_counts_the_day. vm_compute. discriminate. Defined.

(** ** Inspection client *)

Lemma inspect_url_refused (w : world) (self : GSCInspector)
    (site_url inspection_url : string) (use_cache : bool) (s : session) :
  cache s !! get_cache_key w site_url inspection_url = None ->
  daily_limit self <= daily (quota s) ->
  date (clock w (ticks s)) <= date (last_reset (quota s)) ->
  inspect_url w self site_url inspection_url use_cache s
  = (Raise (Exception "Quota limit reached. Please try again later."), tick s).
Proof.
  intros Hkey Hdaily Hdate.
  assert (inspect_url w self site_url inspection_url use_cache s
          = inspect_url w self site_url inspection_url false s) as ->
    by (destruct use_cache; [by apply inspect_url_absent | done]).
  pose proof (check_quota_at_refuses self _ _ Hdaily Hdate) as Hchk.
  rewrite inspect_url_quota_reached by (by rewrite Hchk).
  rewrite Hchk. reflexivity.
Qed.

(** With no entry for the key, the daily limit reached and the date not
    advanced, [inspect_url] raises the quota exception: the service is not
    called, and nothing changes but the count of clock readings. *)
Theorem inspect_url_quota_exhausted (w : world) (self : GSCInspector)
    (site_url inspection_url : string) (use_cache : bool) (s : session) :
  cache s !! get_cache_key w site_url inspection_url = None ->
  daily_limit self <= daily (quota s) ->
  date (clock w (ticks s)) <= date (last_reset (quota s)) ->
  inspect_url w self site_url inspection_url use_cache s
  = (Raise (Exception "Quota limit reached. Please try again later."), tick s).
Proof. apply inspect_url_refused. Qed.

Lemma inspect_url_quota_exhausted_witness :
  inspect_url (sample_world (clock_of [] (timedelta_hours 3)) (always (Ok indexed_response)))
    GSCInspector_init site_a url_2 true
    (session_with_entry (QuotaUsage 2000 5 (timedelta_hours 1) None)
       (CachedData indexed_response 0))
  = (Raise (Exception "Quota limit reached. Please try again later."),
     tick (session_with_entry (QuotaUsage 2000 5 (timedelta_hours 1) None)
             (CachedData indexed_response 0))).
Proof.
  apply inspect_url_quota_exhausted.
  - reflexivity.
  - simpl. lia.
  - vm_compute. discriminate.
Defined.

(** Whenever [inspect_url] returns a response, the cache afterwards holds
    that response under the key of the call, and every other key of the
    cache is as it was. *)
Theorem inspect_url_returns_stored (w : world) (self : GSCInspector)
    (site_url inspection_url : string) (use_cache : bool) (s s' : session)
    (response : json) :
  inspect_url w self site_url inspection_url use_cache s = (Ok response, s') ->
  (exists stored,
     cache s' !! get_cache_key w site_url inspection_url
     = Some (CachedData response stored))
  /\ (forall k, k <> get_cache_key w site_url inspection_url ->
                cache s' !! k = cache s !! k).
Proof.
  rewrite inspect_url_probe.
  assert (forall sm, cache sm = cache s ->
            inspect_url w self site_url inspection_url false sm = (Ok response, s') ->
            (exists stored,
               cache s' !! get_cache_key w site_url inspection_url
               = Some (CachedData response stored))
            /\ (forall k, k <> get_cache_key w site_url inspection_url ->
                          cache s' !! k = cache s !! k)) as Hremote.
  { intros sm Hsm Hrun.
    destruct (inspect_url_nocache_success w self site_url inspection_url sm response s'
                Hrun) as [Hc He].
    rewrite (inspect_url_remote_ok w self site_url inspection_url sm response Hc He)
      in Hrun.
    injection Hrun as <-. simpl. rewrite Hsm. split.
    - eexists. apply lookup_insert_eq.
    - intros k Hk. by apply lookup_insert_ne. }
  destruct (cache_probe_cases w site_url inspection_url use_cache s)
    as [-> | [-> | (entry & Hentry & _ & ->)]].
  - by apply Hremote.
  - by apply Hremote.
  - intros [= <- <-]. simpl. split; [|done].
    exists (timestamp entry). rewrite Hentry. by destruct entry.
Qed.

Lemma inspect_url_returns_stored_witness :
  let w := sample_world (clock_of [] (timedelta_hours 30)) (always (Ok crawled_response)) in
  let s := session_with_entry (QuotaUsage 4 4 0 None) (CachedData indexed_response 0) in
  let s' := snd (inspect_url w GSCInspector_init site_a url_2 true s) in
  (exists stored,
     cache s' !! get_cache_key w site_a url_2 = Some (CachedData crawled_response stored))
  /\ (forall k, k <> get_cache_key w site_a url_2 -> cache s' !! k = cache s !! k).
Proof.
  intros w s s'.
  apply (inspect_url_returns_stored w GSCInspector_init site_a url_2 true s s').
  reflexivity.
Defined.

(** A miss with the quota check passed, answered by an [HttpError] whose
    body is a JSON object with an [error] object and a [message] string:
    [inspect_url] raises ["API Error: "] followed by that message; the
    service was called once, and neither the quota is charged nor the
    cache written. *)
Theorem inspect_url_api_error (w : world) (self : GSCInspector)
    (site_url inspection_url : string) (s : session)
    (body err : list (string * json)) (msg text : string) :
  cache s !! get_cache_key w site_url inspection_url = None ->
  fst (check_quota_at self (clock w (ticks s)) (quota s)) = true ->
  execute w (calls s) site_url inspection_url "en-US"
  = Raise (HttpError (BodyJson (JDict body)) text) ->
  dict_lookup "error" body = Some (JDict err) ->
  dict_lookup "message" err = Some (JStr msg) ->
  inspect_url w self site_url inspection_url true s
  = (Raise (Exception ("API Error: " +:+ msg)),
     Session (snd (check_quota_at self (clock w (ticks s)) (quota s)))
       (cache s) (S (ticks s)) (S (calls s))
       (trace s ++ [EvInspect site_url inspection_url "en-US"])).
Proof.
  intros Hkey Hchk Hexec Herr Hmsg.
  rewrite inspect_url_absent by done.
  unfold inspect_url, cache_probe. run_M. rewrite Hchk. simpl. rewrite Hexec.
  pose proof (api_error_message w
                (Session (snd (check_quota_at self (clock w (ticks s)) (quota s)))
                   (cache s) (S (ticks s)) (S (calls s))
                   (trace s ++ [EvInspect site_url inspection_url "en-US"]))
                body err msg Herr Hmsg) as Hapi.
  exact Hapi.
Qed.

Lemma inspect_url_api_error_witness :
  inspect_url
    (sample_world (clock_of [] (timedelta_seconds 9))
       (always (Raise (HttpError quota_error_body "<HttpError 429>"))))
    GSCInspector_init site_a url_1 true (initial_session 0)
  = (Raise (Exception "API Error: Quota exceeded"),
     Session (QuotaUsage 0 0 0 None) ∅ 1 1 [EvInspect site_a url_1 "en-US"]).
Proof.
  apply (inspect_url_api_error
           (sample_world (clock_of [] (timedelta_seconds 9))
              (always (Raise (HttpError quota_error_body "<HttpError 429>"))))
           GSCInspector_init site_a url_1 (initial_session 0)
           [("error", JDict [("code", JInt 429); ("message", JStr "Quota exceeded")])]
           [("code", JInt 429); ("message", JStr "Quota exceeded")]
           "Quota exceeded" "<HttpError 429>"); reflexivity.
Defined.

(** [inspect_url] calls the service at most once, and adds to the trace
    the request of that call and nothing else. *)
Lemma inspect_url_effects (w : world) (self : GSCInspector)
    (site_url inspection_url : string) (use_cache : bool) (s : session) :
  exists request,
    trace (snd (inspect_url w self site_url inspection_url use_cache s))
    = trace s ++ request
    /\ ((request = []
         /\ calls (snd (inspect_url w self site_url inspection_url use_cache s)) = calls s)
        \/ (request = [EvInspect site_url inspection_url "en-US"]
            /\ calls (snd (inspect_url w self site_url inspection_url use_cache s))
               = S (calls s))).
Proof.
  assert (forall sm, trace sm = trace s -> calls sm = calls s ->
            exists request,
              trace (snd (inspect_url w self site_url inspection_url false sm))
              = trace s ++ request
              /\ ((request = []
                   /\ calls (snd (inspect_url w self site_url inspection_url false sm))
                      = calls s)
                  \/ (request = [EvInspect site_url inspection_url "en-US"]
                      /\ calls (snd (inspect_url w self site_url inspection_url false sm))
                         = S (calls s)))) as Hmiss.
  { intros sm Ht Hc.
    destruct (fst (check_quota_at self (clock w (ticks sm)) (quota sm))) eqn:Hchk.
    - destruct (execute w (calls sm) site_url inspection_url "en-US") as [r|e] eqn:He.
      + rewrite (inspect_url_remote_ok w self site_url inspection_url sm r Hchk He).
        simpl. rewrite Ht, Hc. eauto.
      + destruct (inspect_url_remote_raise w self site_url inspection_url sm e Hchk He)
          as [e' ->].
        simpl. rewrite Ht, Hc. eauto.
    - rewrite (inspect_url_quota_reached w self site_url inspection_url sm Hchk).
      simpl. rewrite Ht, Hc. exists []. rewrite app_nil_r. auto. }
  rewrite inspect_url_probe.
  destruct (cache_probe_cases w site_url inspection_url use_cache s)
    as [-> | [-> | (entry & _ & _ & ->)]].
  - by apply Hmiss.
  - by apply Hmiss.
  - simpl. exists []. rewrite app_nil_r. auto.
Qed.

(** ** Batch runner *)

Lemma after_throttle_frame (w : world) (self : GSCInspector) (s : session) :
  daily (quota (after_throttle w self s)) = daily (quota s)
  /\ last_reset (quota (after_throttle w self s)) = last_reset (quota s)
  /\ cache (after_throttle w self s) = cache s
  /\ calls (after_throttle w self s) = calls s
  /\ (per_minute (quota (after_throttle w self s)) < minute_limit self - 10
      \/ per_minute (quota (after_throttle w self s)) = 0)
  /\ exists pause,
       trace (after_throttle w self s) = trace s ++ pause
       /\ (pause = [] \/ pause = [EvSleep (60 * microseconds_per_second)]).
Proof.
  unfold after_throttle.
  destruct (per_minute (quota s) >=? minute_limit self - 10) eqn:Hpm; simpl.
  - repeat split; auto. eauto.
  - zbool. repeat split; auto. exists []. rewrite app_nil_r. auto.
Qed.

(** The events and the calls of one turn. *)
Lemma batch_iteration_effects (w : world) (self : GSCInspector) (site_url : string)
    (callback : option progress_callback) (total_urls i : nat) (url : string)
    (results : list (list (string * json))) (s : session) :
  exists evs,
    trace (snd (batch_iteration w self site_url callback total_urls i url results s))
    = trace s ++ evs
    /\ turn_events site_url callback total_urls i url evs
    /\ (calls s <= calls (snd (batch_iteration w self site_url callback total_urls i url
                                 results s)) <= S (calls s))%nat.
Proof.
  rewrite batch_iteration_run.
  destruct (after_throttle_frame w self s) as (_ & _ & _ & Hcalls & _ & pause & Hpause & Hp).
  destruct (inspect_url_effects w self site_url url true (after_throttle w self s))
    as (request & Htrace & Hreq).
  destruct (inspect_url w self site_url url true (after_throttle w self s))
    as [[response|e] s1]; simpl in *.
  - exists (pause ++ request ++ [EvSleep inter_call_delay]
              ++ callback_events callback total_urls i).
    rewrite Htrace, Hpause, <- !app_assoc. split; [done|]. split.
    + exists pause, request, [EvSleep inter_call_delay].
      repeat split; auto. destruct Hreq as [[-> _] | [-> _]]; auto.
    + destruct Hreq as [[_ ->] | [_ ->]]; lia.
  - exists (pause ++ request ++ [] ++ callback_events callback total_urls i).
    rewrite Htrace, Hpause, <- !app_assoc. split; [done|]. split.
    + exists pause, request, []. repeat split; auto.
      destruct Hreq as [[-> _] | [-> _]]; auto.
    + destruct Hreq as [[_ ->] | [_ ->]]; lia.
Qed.

Lemma batch_loop_effects (w : world) (self : GSCInspector) (site_url : string)
    (callback : option progress_callback) (total_urls : nat) (urls : list string) :
  forall i results s,
    exists evs,
      trace (snd (batch_loop w self site_url callback total_urls i urls results s))
      = trace s ++ evs
      /\ batch_events site_url callback total_urls i urls evs
      /\ (calls s <= calls (snd (batch_loop w self site_url callback total_urls i urls
                                   results s)) <= calls s + length urls)%nat.
Proof.
  induction urls as [|url rest IH]; intros i results s; simpl.
  - exists []. rewrite app_nil_r. repeat split; lia.
  - unfold mbind, M_bind.
    destruct (batch_iteration_effects w self site_url callback total_urls i url results s)
      as (first & Htrace & Hturn & Hcalls).
    destruct (batch_iteration_returns w self site_url callback total_urls i url results s)
      as (o & s1 & Hrun & _).
    rewrite Hrun in Htrace, Hcalls |- *. simpl in Htrace, Hcalls.
    destruct (IH (S i) (results ++ [o]) s1) as (others & Htrace' & Hbatch & Hcalls').
    exists (first ++ others). rewrite Htrace', Htrace, <- app_assoc.
    split; [done|]. split; [by exists first, others|]. lia.
Qed.

(** Over a whole batch the trace grows by the events of one turn for each
    URL, in the order of the URLs: no request is made for another site, for
    a URL that is not in the list, or twice for one place of the list. *)
Lemma batch_inspect_events (w : world) (self : GSCInspector) (site_url : string)
    (urls : list string) (callback : option progress_callback) (s : session) :
  exists evs,
    trace (snd (batch_inspect w self site_url urls callback s)) = trace s ++ evs
    /\ batch_events site_url callback (length urls) 0 urls evs.
Proof.
  destruct (batch_loop_effects w self site_url callback (length urls) urls 0 [] s)
    as (evs & Htrace & Hevs & _).
  by exists evs.
Qed.

(** A batch calls the service at most once for each URL of the list: a
    failed URL is not tried again. *)
Theorem batch_inspect_call_budget (w : world) (self : GSCInspector) (site_url : string)
    (urls : list string) (callback : option progress_callback) (s : session) :
  (calls s <= calls (snd (batch_inspect w self site_url urls callback s))
   <= calls s + length urls)%nat.
Proof.
  destruct (batch_loop_effects w self site_url callback (length urls) urls 0 [] s)
    as (evs & _ & _ & Hcalls).
  exact Hcalls.
Qed.

Lemma batch_events_requests (site_url : string) (total_urls : nat) (urls : list string) :
  forall i evs,
    batch_events site_url None total_urls i urls evs ->
    Forall (fun e => e = EvSleep (60 * microseconds_per_second)
                     \/ e = EvSleep inter_call_delay
                     \/ exists url, url ∈ urls /\ e = EvInspect site_url url "en-US") evs.
Proof.
  induction urls as [|url rest IH]; intros i evs; simpl.
  - intros ->. constructor.
  - intros (first & others & -> & Hturn & Hrest).
    apply Forall_app. split.
    + destruct Hturn as (pause & request & delay & -> & Hp & Hr & Hd).
      simpl. rewrite app_nil_r. rewrite !Forall_app. repeat split.
      * destruct Hp as [-> | ->]; [constructor | apply Forall_singleton; auto].
      * destruct Hr as [-> | ->]; [constructor | apply Forall_singleton].
        right; right. exists url. split; [apply list_elem_of_here | done].
      * destruct Hd as [-> | ->]; [constructor | apply Forall_singleton; auto].
    + eapply Forall_impl; [by apply (IH (S i))|].
      intros e [He | [He | (u & Hu & He)]]; auto.
      right; right. exists u. split; [by apply list_elem_of_further | done].
Qed.

(** Without a callback, all that a batch does to the outside is pause for a
    minute, wait between calls, and ask the service about the given site
    and a URL of the list, in the language en-US. *)
Theorem batch_inspect_requests (w : world) (self : GSCInspector) (site_url : string)
    (urls : list string) (s : session) :
  exists evs,
    trace (snd (batch_inspect w self site_url urls None s)) = trace s ++ evs
    /\ Forall (fun e => e = EvSleep (60 * microseconds_per_second)
                        \/ e = EvSleep inter_call_delay
                        \/ exists url, url ∈ urls /\ e = EvInspect site_url url "en-US")
         evs.
Proof.
  destruct (batch_inspect_events w self site_url urls None s) as (evs & Htrace & Hevs).
  exists evs. split; [done|]. by eapply batch_events_requests.
Qed.



(** The session a turn leaves has the quota, the cache and the count of
    calls its inspection left. *)
Lemma batch_iteration_state (w : world) (self : GSCInspector) (site_url : string)
    (callback : option progress_callback) (total_urls i : nat) (url : string)
    (results : list (list (string * json))) (s : session) :
  let s1 := snd (inspect_url w self site_url url true (after_throttle w self s)) in
  let s' := snd (batch_iteration w self site_url callback total_urls i url results s) in
  quota s' = quota s1 /\ cache s' = cache s1 /\ calls s' = calls s1.
Proof.
  simpl. rewrite batch_iteration_run.
  by destruct (inspect_url w self site_url url true (after_throttle w self s))
    as [[response|e] s1].
Qed.

(** [inspect_url] leaves the per-minute count as it was, at zero, or one
    above either. *)
Lemma inspect_url_per_minute (w : world) (self : GSCInspector)
    (site_url inspection_url : string) (use_cache : bool) (s : session) :
  let pm' := per_minute (quota (snd (inspect_url w self site_url inspection_url
                                       use_cache s))) in
  pm' = per_minute (quota s) \/ pm' = 0
  \/ pm' = per_minute (quota s) + 1 \/ pm' = 1.
Proof.
  simpl.
  assert (forall sm, quota sm = quota s ->
            let pm' := per_minute (quota (snd (inspect_url w self site_url inspection_url
                                                 false sm))) in
            pm' = per_minute (quota s) \/ pm' = 0
            \/ pm' = per_minute (quota s) + 1 \/ pm' = 1) as Hmiss.
  { intros sm Hq. simpl.
    destruct (check_quota_at_counters self (clock w (ticks sm)) (quota sm)) as [_ Hpm].
    rewrite Hq in Hpm.
    destruct (fst (check_quota_at self (clock w (ticks sm)) (quota sm))) eqn:Hchk.
    - destruct (execute w (calls sm) site_url inspection_url "en-US") as [r|e] eqn:He.
      + rewrite (inspect_url_remote_ok w self site_url inspection_url sm r Hchk He).
        unfold update_quota_of. simpl. rewrite Hq. lia.
      + destruct (inspect_url_remote_raise w self site_url inspection_url sm e Hchk He)
          as [e' ->].
        simpl. rewrite Hq. lia.
    - rewrite (inspect_url_quota_reached w self site_url inspection_url sm Hchk).
      simpl. rewrite Hq. lia. }
  rewrite inspect_url_probe.
  destruct (cache_probe_cases w site_url inspection_url use_cache s)
    as [-> | [-> | (entry & _ & _ & ->)]].
  - by apply Hmiss.
  - by apply Hmiss.
  - simpl. auto.
Qed.

Lemma batch_loop_per_minute (w : world) (self : GSCInspector) (site_url : string)
    (callback : option progress_callback) (total_urls : nat) (urls : list string) :
  11 <= minute_limit self ->
  forall i results s,
    urls <> [] ->
    per_minute (quota (snd (batch_loop w self site_url callback total_urls i urls
                              results s)))
    <= minute_limit self - 10.
Proof.
  intros HM. induction urls as [|url rest IH]; intros i results s Hne; [done|].
  simpl. unfold mbind, M_bind.
  destruct (batch_iteration_state w self site_url callback total_urls i url results s)
    as (Hq & _ & _).
  destruct (batch_iteration_returns w self site_url callback total_urls i url results s)
    as (o & s1 & Hrun & _).
  rewrite Hrun in Hq |- *. simpl in Hq.
  destruct rest as [|url' rest]; [|by apply IH].
  simpl. rewrite Hq.
  destruct (after_throttle_frame w self s) as (_ & _ & _ & _ & Hpm & _).
  pose proof (inspect_url_per_minute w self site_url url true (after_throttle w self s))
    as Hstep.
  simpl in Hstep. lia.
Qed.

(** The pause keeps a batch clear of the per-minute limit: whatever the
    session it starts from, after a batch of at least one URL the
    per-minute count is at most the limit less 10. *)
Theorem batch_inspect_per_minute_margin (w : world) (self : GSCInspector)
    (site_url : string) (urls : list string) (callback : option progress_callback)
    (s : session) :
  11 <= minute_limit self ->
  urls <> [] ->
  per_minute (quota (snd (batch_inspect w self site_url urls callback s)))
  <= minute_limit self - 10.
Proof. intros HM Hne. by apply batch_loop_per_minute. Qed.

Lemma batch_inspect_per_minute_margin_witness :
  per_minute
    (quota (snd (batch_inspect
                   (sample_world (clock_of [] (timedelta_seconds 5))
                      (always (Ok indexed_response)))
                   GSCInspector_init site_a [url_1; url_2] None
                   (Session (QuotaUsage 700 700 0 None) ∅ 0 0 []))))
  <= minute_limit GSCInspector_init - 10.
Proof. apply batch_inspect_per_minute_margin; [simpl; lia | discriminate]. Defined.

(** [batch_inspect] keeps both counters within the limits. *)
Theorem batch_inspect_within_limits (w : world) (self : GSCInspector)
    (site_url : string) (urls : list string) (callback : option progress_callback)
    (s : session) :
  0 <= daily_limit self -> 0 <= minute_limit self ->
  within_limits self (quota s) ->
  within_limits self (quota (snd (batch_inspect w self site_url urls callback s))).
Proof. intros HD HM Hs. by apply batch_loop_within. Qed.

Lemma batch_inspect_within_limits_witness :
  within_limits GSCInspector_init
    (quota (snd (batch_inspect
                   (sample_world (clock_of [] (timedelta_seconds 5))
                      (always (Ok indexed_response)))
                   GSCInspector_init site_a [url_1; url_2; url_1] None
                   (Session (QuotaUsage 1999 300 0 None) ∅ 0 0 [])))).
Proof.
  apply batch_inspect_within_limits; simpl; try lia.
  unfold within_limits. simpl. lia.
Defined.




(** ** The driver of a run *)

(** The batches of the driver, one after the other, are the list. *)
Lemma chunks_concat {A} (size : nat) (count : nat) :
  (0 < size)%nat ->
  forall l : list A,
    (length l <= count * size)%nat ->
    concat (map (fun k => take size (drop (k * size) l)) (seq 0 count)) = l.
Proof.
  intros Hsize. induction count as [|count IH]; intros l Hlen.
  - destruct l; [done | simpl in Hlen; lia].
  - simpl seq. rewrite <- seq_shift, map_cons, map_map. simpl concat.
    rewrite drop_0.
    rewrite (map_ext _ (fun k => take size (drop (k * size) (drop size l)))).
    + rewrite IH; [apply take_drop|]. rewrite length_drop. lia.
    + intros k. rewrite drop_drop. do 2 f_equal; lia.
Qed.

Lemma py_range_step_covers (stop step : nat) :
  (0 < step)%nat -> (stop <= (stop + step - 1) / step * step)%nat.
Proof.
  intros Hstep.
  pose proof (Nat.div_mod_eq (stop + step - 1) step) as Heq.
  pose proof (Nat.mod_upper_bound (stop + step - 1) step) as Hlt.
  nia.
Qed.

Lemma py_range_step_chunks {A} (l : list A) (size : nat) :
  (0 < size)%nat ->
  concat (map (fun i => take size (drop i l)) (py_range_step (length l) size)) = l.
Proof.
  intros Hsize. unfold py_range_step. rewrite map_map.
  apply chunks_concat; [done|]. by apply py_range_step_covers.
Qed.

Lemma run_batches_returns (w : world) (self : GSCInspector) (selected_property : string)
    (urls : list string) (batch_size : nat) (delay : Z) (starts : list nat) :
  forall all_results s,
    exists outs s',
      run_batches w self selected_property urls batch_size delay starts all_results s
      = (Ok (all_results ++ outs), s')
      /\ Forall2 outcome_for
           (concat (map (fun i => take batch_size (drop i urls)) starts)) outs.
Proof.
  induction starts as [|i rest IH]; intros all_results s; simpl.
  - exists [], s. rewrite app_nil_r. split; [done | constructor].
  - unfold mbind at 1, M_bind at 1. unfold batch_inspect.
    destruct (batch_loop_returns w self selected_property
                (Some (update_progress i (length (take batch_size (drop i urls)))
                         (length urls)))
                (length (take batch_size (drop i urls)))
                (take batch_size (drop i urls)) 0 [] s)
      as (outs1 & s1 & -> & Houts1).
    simpl app.
    unfold mbind at 1, M_bind at 1.
    assert (exists s2,
              (if (i + batch_size <? length urls)%nat
               then time_sleep (timedelta_seconds delay) else mret ()) s1 = (Ok (), s2))
      as [s2 ->] by (case_match; run_M; eauto).
    destruct (IH (all_results ++ outs1) s2) as (outs2 & s' & -> & Houts2).
    exists (outs1 ++ outs2), s'. rewrite app_assoc. split; [done|].
    by apply Forall2_app.
Qed.

(** A run returns one outcome for each URL entered, in the order entered,
    whatever the batch size (at least 1) and the delay between batches:
    cutting the list into batches loses and repeats no URL. *)
Theorem start_inspection_one_outcome_per_url (w : world) (self : GSCInspector)
    (use_cache : bool) (selected_property : string) (urls : list string)
    (batch_size : nat) (delay : Z) (s : session) :
  (1 <= batch_size)%nat ->
  exists outs s',
    start_inspection w self use_cache selected_property urls batch_size delay s
    = (Ok outs, s')
    /\ Forall2 outcome_for urls outs.
Proof.
  intros Hsize. unfold start_inspection.
  destruct urls as [|url urls]; [exists [], s; split; [done | constructor]|].
  destruct batch_size as [|size]; [lia|].
  destruct (run_batches_returns w self selected_property (url :: urls) (S size) delay
              (py_range_step (length (url :: urls)) (S size)) [] s)
    as (outs & s' & Hrun & Houts).
  exists outs, s'. split; [exact Hrun|].
  rewrite py_range_step_chunks in Houts by lia. exact Houts.
Qed.

Lemma start_inspection_one_outcome_per_url_witness :
  exists outs s',
    start_inspection
      (sample_world (clock_of [] (timedelta_seconds 5)) (always (Ok indexed_response)))
      GSCInspector_init true site_a [url_1; url_2; url_1; url_2; url_1] 2 5
      (initial_session 0)
    = (Ok outs, s')
    /\ Forall2 outcome_for [url_1; url_2; url_1; url_2; url_1] outs.
Proof. apply start_inspection_one_outcome_per_url. lia. Defined.

(** ** Result normaliser and report *)

Lemma bind_ok_inv {A B} (m : result A) (f : A -> result B) (b : B) :
  (m ≫= f) = Ok b -> exists a, m = Ok a /\ f a = Ok b.
Proof. destruct m as [a|e]; simpl; [eauto | discriminate]. Qed.

Ltac bind_inv H :=
  repeat match type of H with
    | (_ ≫= _) = Ok _ =>
        let a := fresh "a" in
        let Ha := fresh "Ha" in
        apply bind_ok_inv in H as (a & Ha & H)
    | (if ?b then _ else _) = Ok _ => destruct b
    end.

Lemma parse_index_status_url inspection p p' :
  parse_index_status inspection p = Ok p' ->
  inspection_url p' = inspection_url p
  /\ rich_results_detected p' = rich_results_detected p.
Proof. unfold parse_index_status. intros H. bind_inv H; by injection H as <-. Qed.

Lemma parse_mobile_usability_url inspection p p' :
  parse_mobile_usability inspection p = Ok p' ->
  inspection_url p' = inspection_url p
  /\ rich_results_detected p' = rich_results_detected p.
Proof. unfold parse_mobile_usability. intros H. bind_inv H; by injection H as <-. Qed.

Lemma parse_rich_results_url inspection p p' :
  parse_rich_results inspection p = Ok p' ->
  inspection_url p' = inspection_url p
  /\ ((exists joined, rich_results_detected p' = JStr joined)
      \/ rich_results_detected p' = rich_results_detected p).
Proof.
  unfold parse_rich_results. intros H. bind_inv H; injection H as <-; simpl; eauto.
Qed.

Lemma parse_inspection_result_fields (outcome : list (string * json)) (r : flat_record) :
  parse_inspection_result outcome = Ok r ->
  inspection_url r = dict_get outcome "url" (JStr "")
  /\ exists joined, rich_results_detected r = JStr joined.
Proof.
  unfold parse_inspection_result. intros H. bind_inv H.
  - apply parse_index_status_url in Ha3 as [Hurl3 Hrich3].
    apply parse_mobile_usability_url in Ha4 as [Hurl4 Hrich4].
    apply parse_rich_results_url in H as [Hurl Hrich].
    split; [by rewrite Hurl, Hurl4, Hurl3|].
    destruct Hrich as [Hrich | Hrich]; [done|].
    exists "". by rewrite Hrich, Hrich4, Hrich3.
  - injection H as <-. simpl. eauto.
Qed.

(** Whenever the normaliser returns, whatever the response holds, the
    field [inspection_url] is the URL of the outcome (the empty string if
    the outcome has none), and the field [rich_results_detected] is a
    string. *)
Theorem parse_inspection_result_url_and_types (outcome : list (string * json))
    (r : flat_record) :
  parse_inspection_result outcome = Ok r ->
  inspection_url r = dict_get outcome "url" (JStr "")
  /\ exists joined, rich_results_detected r = JStr joined.
Proof. apply parse_inspection_result_fields. Qed.

Lemma parse_inspection_result_url_and_types_witness :
  exists r,
    parse_inspection_result (success_outcome url_1 indexed_response "2024-05-01T10:00:00")
    = Ok r
    /\ inspection_url r = JStr url_1
    /\ exists joined, rich_results_detected r = JStr joined.
Proof.
  eexists. split; [reflexivity|].
  apply (parse_inspection_result_url_and_types
           (success_outcome url_1 indexed_response "2024-05-01T10:00:00")).
  reflexivity.
Defined.

(** The row of one outcome of a batch. *)
Lemma report_row_of_outcome (url : string) (outcome : list (string * json)) :
  outcome_for url outcome ->
  response_shaped (dict_get outcome "data" (JDict [])) = true ->
  exists row,
    report_row outcome = Ok row
    /\ row_reports url outcome row
    /\ (count_status "success" [row] + count_status "error" [row] = 1)%nat.
Proof.
  intros [(response & ts & ->) | (message & ts & ->)] Hshape.
  - destruct (parse_inspection_result_shaped _ Hshape) as [parsed Hparsed].
    destruct (parse_inspection_result_fields _ _ Hparsed) as [Hurl _].
    unfold report_row. simpl. rewrite Hparsed. simpl.
    eexists. split; [reflexivity|]. split; [|reflexivity].
    split; [reflexivity|]. split; [reflexivity|]. split; [reflexivity|]. split.
    + intros _. exists parsed. split; [done|].
      split; [unfold row_has_fields; repeat split; reflexivity|].
      split; [simpl; by rewrite Hurl|]. split; reflexivity.
    + discriminate.
  - eexists. split; [reflexivity|]. split; [|reflexivity].
    split; [reflexivity|]. split; [reflexivity|]. split; [reflexivity|]. split.
    + discriminate.
    + by intros m [= <-].
Qed.

Lemma count_status_cons (status : string) (row : list (string * json))
    (rows : list (list (string * json))) :
  count_status status (row :: rows)
  = (count_status status [row] + count_status status rows)%nat.
Proof.
  unfold count_status. rewrite !filter_cons, filter_nil.
  by destruct (decide (is_JStr status (dict_get row "status" JNull) = true)).
Qed.

(** The report of a batch whose responses have the shape of the service's
    responses: the loop returns one row for each outcome, in order; the row
    carries the URL, the status and the timestamp of its outcome, the
    normalised fields of a success and the message of an error; and the
    counts of successes and of errors add up to the number of URLs. *)
Theorem report_rows_of_batch (urls : list string) (outcomes : list (list (string * json))) :
  Forall2 outcome_for urls outcomes ->
  Forall (fun o => response_shaped (dict_get o "data" (JDict [])) = true) outcomes ->
  exists rows,
    report_rows outcomes = Ok rows
    /\ Forall3 row_reports urls outcomes rows
    /\ (count_status "success" rows + count_status "error" rows = length urls)%nat.
Proof.
  induction 1 as [|url outcome urls outcomes Hout _ IH]; intros Hshape.
  - exists []. repeat split. constructor.
  - apply Forall_cons in Hshape as [Hshape Hrest].
    destruct (report_row_of_outcome url outcome Hout Hshape) as (row & Hrow & Hrep & Hcount).
    destruct (IH Hrest) as (rows & Hrows & Hreps & Hcounts).
    exists (row :: rows). simpl. rewrite Hrow. simpl. rewrite Hrows. simpl.
    split; [done|]. split; [by constructor|].
    rewrite (count_status_cons "success"), (count_status_cons "error"). lia.
Qed.

Lemma report_rows_of_batch_witness :
  exists rows,
    report_rows [success_outcome url_1 indexed_response "t1";
                 error_outcome url_2 "API Error: Quota exceeded" "t2"] = Ok rows
    /\ Forall3 row_reports [url_1; url_2]
         [success_outcome url_1 indexed_response "t1";
          error_outcome url_2 "API Error: Quota exceeded" "t2"] rows
    /\ (count_status "success" rows + count_status "error" rows = 2)%nat.
Proof.
  apply (report_rows_of_batch [url_1; url_2]).
  - constructor; [left; by eexists _, _|].
    constructor; [right; by eexists _, _|]. constructor.
  - constructor; [reflexivity|]. constructor; [reflexivity | constructor].
Defined.

(** ** The URLs of a run *)

Section Strip.
Variable isspace : Ascii.ascii -> bool.

Lemma py_lstrip_head s c rest :
  py_lstrip isspace s = String c rest -> isspace c = false.
Proof.
  induction s as [|c' s IH]; simpl; [discriminate|].
  destruct (isspace c') eqn:Hc; [done|]. by intros [= <- <-].
Qed.

Lemma py_lstrip_last s :
  py_lstrip isspace s <> EmptyString ->
  string_last (py_lstrip isspace s) = string_last s.
Proof.
  induction s as [|c s IH]; simpl; [done|].
  destruct (isspace c) eqn:Hc; [|done].
  intros Hne. rewrite (IH Hne).
  destruct s; [done | reflexivity].
Qed.

Lemma py_rstrip_last s c :
  string_last (py_rstrip isspace s) = Some c -> isspace c = false.
Proof.
  induction s as [|c' s IH]; simpl; [discriminate|].
  destruct (py_rstrip isspace s) as [|k kept] eqn:Hk.
  - destruct (isspace c') eqn:Hc; simpl; [discriminate|]. by intros [= <-].
  - simpl. intros Hlast. apply IH.
    destruct kept; exact Hlast.
Qed.

Lemma py_strip_clean s :
  py_strip isspace s <> EmptyString ->
  (forall c rest, py_strip isspace s = String c rest -> isspace c = false)
  /\ (forall c, string_last (py_strip isspace s) = Some c -> isspace c = false).
Proof.
  unfold py_strip. intros Hne. split.
  - intros c rest. apply py_lstrip_head.
  - intros c. rewrite py_lstrip_last by done. apply py_rstrip_last.
Qed.
End Strip.

(** No URL taken from the text area is empty, and none begins or ends with
    a whitespace character: blank lines are dropped and the others
    stripped at both ends. *)
Theorem urls_from_text_clean (isspace : Ascii.ascii -> bool) (urls_text : string) :
  Forall (fun url =>
            url <> EmptyString
            /\ (forall c rest, url = String c rest -> isspace c = false)
            /\ (forall c, string_last url = Some c -> isspace c = false))
    (urls_from_text isspace urls_text).
Proof.
  unfold urls_from_text. destruct urls_text as [|c0 text]; [constructor|].
  apply Forall_forall. intros url (line & _ & Hline)%list_elem_of_omap.
  destruct (py_strip isspace line) as [|c rest] eqn:Hstrip; [discriminate|].
  injection Hline as <-.
  destruct (py_strip_clean isspace line) as [Hhead Hlast];
    [by rewrite Hstrip|].
  rewrite Hstrip in Hhead, Hlast. split; [done|]. split; [|done].
  intros c' rest' [= <- <-]. by eapply Hhead.
Qed.

(** The text of a text area with spaces, an empty line and a line end of
    two characters. *)
Example urls_from_text_sample :
  urls_from_text latin1_isspace
    (" https://a.com/1 " +:+ String newline (String newline
       (String (Ascii.ascii_of_nat 9) ("https://a.com/2" +:+
          String (Ascii.ascii_of_nat 13) (String newline "   ")))))
  = ["https://a.com/1"; "https://a.com/2"].
Proof. reflexivity. Qed.

(** ** Authentication *)

Lemma py_map_site_urls (entries props : list json) :
  Forall2 (fun entry prop =>
             exists items, entry = JDict items /\ dict_lookup "siteUrl" items = Some prop)
    entries props ->
  py_map (fun site => py_getitem site "siteUrl") entries = Ok props.
Proof.
  induction 1 as [|entry prop entries props (items & -> & Hurl) _ IH]; simpl; [done|].
  by rewrite Hurl; simpl; rewrite IH.
Qed.

(** [authenticate_gsc] returns the [siteUrl] of every entry of [siteEntry],
    in the order of the entries, and no property when the answer of the
    service has no [siteEntry]. *)
Theorem authenticate_gsc_properties (sites : list (string * json)) (entries props : list json) :
  dict_get sites "siteEntry" (JList []) = JList entries ->
  Forall2 (fun entry prop =>
             exists items, entry = JDict items /\ dict_lookup "siteUrl" items = Some prop)
    entries props ->
  authenticate_gsc (Ok (JDict sites)) = Ok props.
Proof.
  intros Hentries Hprops. unfold authenticate_gsc. simpl.
  rewrite Hentries. simpl. by rewrite (py_map_site_urls entries props Hprops).
Qed.

Lemma authenticate_gsc_properties_witness :
  authenticate_gsc
    (Ok (JDict [("siteEntry",
                 JList [JDict [("siteUrl", JStr "sc-domain:a.com");
                               ("permissionLevel", JStr "siteOwner")];
                        JDict [("siteUrl", JStr "https://b.com/")]])]))
  = Ok [JStr "sc-domain:a.com"; JStr "https://b.com/"]
  /\ authenticate_gsc (Ok (JDict [])) = Ok [].
Proof.
  split.
  - eapply authenticate_gsc_properties; [reflexivity|].
    constructor; [by eexists|]. constructor; [by eexists|]. constructor.
  - eapply authenticate_gsc_properties; [reflexivity | constructor].
Defined.

Lemma py_map_site_urls_missing (entries : list json) :
  Forall (fun entry => is_dict entry = true) entries ->
  Exists (fun entry => exists items,
            entry = JDict items /\ dict_lookup "siteUrl" items = None) entries ->
  py_map (fun site => py_getitem site "siteUrl") entries = Raise (KeyError "siteUrl").
Proof.
  induction 1 as [|entry entries Hdict _ IH]; intros Hex.
  - by apply Exists_nil in Hex.
  - destruct entry as [| | | | | |items]; try discriminate. simpl.
    destruct (dict_lookup "siteUrl" items) as [prop|] eqn:Hurl; simpl; [|done].
    apply Exists_cons in Hex as [(items' & [= <-] & Hnone) | Hex]; [congruence|].
    by rewrite (IH Hex).
Qed.

(** When an entry of [siteEntry] has no [siteUrl], authentication fails,
    the missing key in its message, whatever the other entries hold. *)
Theorem authenticate_gsc_missing_site_url (sites : list (string * json))
    (entries : list json) :
  dict_get sites "siteEntry" (JList []) = JList entries ->
  Forall (fun entry => is_dict entry = true) entries ->
  Exists (fun entry => exists items,
            entry = JDict items /\ dict_lookup "siteUrl" items = None) entries ->
  authenticate_gsc (Ok (JDict sites))
  = Raise (Exception "Authentication failed: 'siteUrl'").
Proof.
  intros Hentries Hdicts Hmissing. unfold authenticate_gsc. simpl.
  rewrite Hentries. simpl.
  by rewrite (py_map_site_urls_missing entries Hdicts Hmissing).
Qed.

Lemma authenticate_gsc_missing_site_url_witness :
  authenticate_gsc
    (Ok (JDict [("siteEntry",
                 JList [JDict [("siteUrl", JStr "sc-domain:a.com")];
                        JDict [("permissionLevel", JStr "siteOwner")]])]))
  = Raise (Exception "Authentication failed: 'siteUrl'").
Proof.
  eapply authenticate_gsc_missing_site_url; [reflexivity | |].
  - constructor; [reflexivity|]. constructor; [reflexivity | constructor].
  - apply Exists_cons_tl, Exists_cons_hd. by eexists.
Defined.

(** ** Batches and the whole list *)

(** What [inspect_url] returns, and the state it leaves, do not depend on
    the trace. *)
Lemma inspect_url_same_state (w : world) (self : GSCInspector)
    (site_url inspection_url : string) (use_cache : bool) (s t : session) :
  same_state s t ->
  fst (inspect_url w self site_url inspection_url use_cache s)
  = fst (inspect_url w self site_url inspection_url use_cache t)
  /\ same_state (snd (inspect_url w self site_url inspection_url use_cache s))
       (snd (inspect_url w self site_url inspection_url use_cache t)).
Proof.
  destruct s as [q c tk k tr1], t as [q' c' tk' k' tr2].
  unfold same_state. simpl. intros (<- & <- & <- & <-).
  unfold inspect_url, cache_probe, api_error. run_M.
  repeat (case_match; simpl in *; simplify_eq); done.
Qed.

Lemma after_throttle_same_state (w : world) (self : GSCInspector) (s t : session) :
  same_state s t -> same_state (after_throttle w self s) (after_throttle w self t).
Proof.
  destruct s as [q c tk k tr1], t as [q' c' tk' k' tr2].
  unfold same_state, after_throttle. simpl. intros (<- & <- & <- & <-).
  by case_match.
Qed.

(** A turn appends the same outcome and leaves the same state whatever the
    trace, the callback and the numbers it reports. *)
Lemma batch_iteration_same_state (w : world) (self : GSCInspector) (site_url : string)
    (cb1 cb2 : option progress_callback) (total1 total2 i1 i2 : nat) (url : string)
    (res1 res2 : list (list (string * json))) (s t : session) :
  same_state s t ->
  exists o s1 t1,
    batch_iteration w self site_url cb1 total1 i1 url res1 s = (Ok (res1 ++ [o]), s1)
    /\ batch_iteration w self site_url cb2 total2 i2 url res2 t = (Ok (res2 ++ [o]), t1)
    /\ same_state s1 t1.
Proof.
  intros Hst. rewrite !batch_iteration_run.
  destruct (inspect_url_same_state w self site_url url true
              (after_throttle w self s) (after_throttle w self t)
              (after_throttle_same_state w self s t Hst)) as [Hfst Hsnd].
  destruct (inspect_url w self site_url url true (after_throttle w self s))
    as [[r1|e1] s1],
    (inspect_url w self site_url url true (after_throttle w self t))
    as [[r2|e2] t1]; simpl in Hfst; simplify_eq;
    destruct Hsnd as (Hq & Hc & Htk & Hk); simpl in *;
    rewrite Htk; eexists _, _, _; (split; [done|]); (split; [done|]);
    unfold same_state; simpl; by rewrite Hq, Hc, Hk.
Qed.

Lemma batch_loop_same_state (w : world) (self : GSCInspector) (site_url : string)
    (cb1 cb2 : option progress_callback) (total1 total2 : nat) (urls : list string) :
  forall i1 i2 res1 res2 s t,
    same_state s t ->
    exists outs s1 t1,
      batch_loop w self site_url cb1 total1 i1 urls res1 s = (Ok (res1 ++ outs), s1)
      /\ batch_loop w self site_url cb2 total2 i2 urls res2 t = (Ok (res2 ++ outs), t1)
      /\ same_state s1 t1.
Proof.
  induction urls as [|url rest IH]; intros i1 i2 res1 res2 s t Hst; simpl.
  - exists [], s, t. by rewrite !app_nil_r.
  - unfold mbind, M_bind.
    destruct (batch_iteration_same_state w self site_url cb1 cb2 total1 total2 i1 i2 url
                res1 res2 s t Hst) as (o & s1 & t1 & -> & -> & Hst1).
    destruct (IH (S i1) (S i2) (res1 ++ [o]) (res2 ++ [o]) s1 t1 Hst1)
      as (outs & s2 & t2 & -> & -> & Hst2).
    exists (o :: outs), s2, t2. by rewrite <- !app_assoc.
Qed.

(** The loop over a list cut in two is the loop over the first part, then
    the loop over the second. *)
Lemma batch_loop_app (w : world) (self : GSCInspector) (site_url : string)
    (callback : option progress_callback) (total_urls : nat) (l1 l2 : list string) :
  forall i results s,
    batch_loop w self site_url callback total_urls i (l1 ++ l2) results s
    = match batch_loop w self site_url callback total_urls i l1 results s with
      | (Ok results1, s1) =>
          batch_loop w self site_url callback total_urls (i + length l1) l2 results1 s1
      | (Raise e, s1) => (Raise e, s1)
      end.
Proof.
  induction l1 as [|url l1 IH]; intros i results s; simpl.
  - by rewrite Nat.add_0_r.
  - unfold mbind, M_bind.
    destruct (batch_iteration w self site_url callback total_urls i url results s)
      as [[results1|e] s1]; [|done].
    rewrite IH. by replace (i + S (length l1))%nat with (S i + length l1)%nat by lia.
Qed.

Lemma run_batches_as_loop (w : world) (self : GSCInspector) (selected_property : string)
    (urls : list string) (batch_size : nat) (delay : Z)
    (callback : option progress_callback) (total_urls : nat) (starts : list nat) :
  forall i all_results s t,
    same_state s t ->
    exists outs s1 t1,
      run_batches w self selected_property urls batch_size delay starts all_results s
      = (Ok (all_results ++ outs), s1)
      /\ batch_loop w self selected_property callback total_urls i
           (concat (map (fun start => take batch_size (drop start urls)) starts))
           all_results t
         = (Ok (all_results ++ outs), t1)
      /\ same_state s1 t1.
Proof.
  induction starts as [|start rest IH]; intros i all_results s t Hst; simpl.
  - exists [], s, t. by rewrite !app_nil_r.
  - unfold mbind at 1, M_bind at 1. unfold batch_inspect.
    rewrite batch_loop_app.
    destruct (batch_loop_same_state w self selected_property
                (Some (update_progress start (length (take batch_size (drop start urls)))
                         (length urls)))
                callback
                (length (take batch_size (drop start urls))) total_urls
                (take batch_size (drop start urls)) 0 i [] all_results s t Hst)
      as (outs1 & s1 & t1 & -> & -> & Hst1).
    simpl app. unfold mbind at 1, M_bind at 1.
    assert (exists s2,
              (if (start + batch_size <? length urls)%nat
               then time_sleep (timedelta_seconds delay) else mret ()) s1 = (Ok (), s2)
              /\ same_state s2 t1) as (s2 & -> & Hst2).
    { destruct Hst1 as (Hq & Hc & Htk & Hk).
      case_match; run_M; eexists; (split; [done|]); unfold same_state; simpl; done. }
    destruct (IH (i + length (take batch_size (drop start urls)))%nat
                (all_results ++ outs1) s2 t1 Hst2)
      as (outs2 & s3 & t3 & -> & -> & Hst3).
    exists (outs1 ++ outs2), s3, t3. by rewrite !app_assoc.
Qed.

(** A run in batches returns the outcomes, and leaves the quota, the cache
    and the counts of clock readings and of calls, of a single
    [batch_inspect] over the whole list, for the same readings of the clock
    and the same answers of the service: the batches add pauses and change
    the numbers reported as progress, nothing else. *)
Theorem start_inspection_as_one_batch (w : world) (self : GSCInspector)
    (use_cache : bool) (selected_property : string) (urls : list string)
    (batch_size : nat) (delay : Z) (callback : option progress_callback) (s : session) :
  (1 <= batch_size)%nat ->
  fst (start_inspection w self use_cache selected_property urls batch_size delay s)
  = fst (batch_inspect w self selected_property urls callback s)
  /\ same_state
       (snd (start_inspection w self use_cache selected_property urls batch_size delay s))
       (snd (batch_inspect w self selected_property urls callback s)).
Proof.
  intros Hsize. unfold start_inspection, batch_inspect.
  destruct urls as [|url urls]; [done|].
  destruct batch_size as [|size]; [lia|].
  destruct (run_batches_as_loop w self selected_property (url :: urls) (S size) delay
              callback (length (url :: urls))
              (py_range_step (length (url :: urls)) (S size)) 0 [] s s)
    as (outs & s1 & t1 & Hrun & Hloop & Hst); [done|].
  rewrite py_range_step_chunks in Hloop by lia.
  by rewrite Hrun, Hloop.
Qed.

Lemma start_inspection_as_one_batch_witness :
  let w := sample_world (clock_of [] (timedelta_seconds 5))
             (fun n _ _ _ =>
                if decide (n = 1%nat) then Raise (HttpError quota_error_body "<HttpError 429>")
                else Ok indexed_response) in
  fst (start_inspection w GSCInspector_init true site_a [url_1; url_2; url_1] 2 5
         (initial_session 0))
  = fst (batch_inspect w GSCInspector_init site_a [url_1; url_2; url_1] None
           (initial_session 0))
  /\ same_state
       (snd (start_inspection w GSCInspector_init true site_a [url_1; url_2; url_1] 2 5
               (initial_session 0)))
       (snd (batch_inspect w GSCInspector_init site_a [url_1; url_2; url_1] None
               (initial_session 0))).
Proof. intros w. apply start_inspection_as_one_batch. lia. Defined.

(** ** The progress of a run *)

Lemma batch_events_in_range (site_url : string) (offset batch_len total_len : nat)
    (urls : list string) :
  (offset + batch_len <= total_len)%nat ->
  forall i evs,
    (i + length urls <= batch_len)%nat ->
    batch_events site_url (Some (update_progress offset batch_len total_len))
      batch_len i urls evs ->
    Forall progress_in_range evs.
Proof.
  intros Hfit. induction urls as [|url rest IH]; intros i evs Hlen; simpl.
  - intros ->. constructor.
  - intros (first & others & -> & Hturn & Hrest).
    apply Forall_app. split; [|apply (IH (S i)); [simpl in Hlen; lia | done]].
    destruct Hturn as (pause & request & delay & -> & Hp & Hr & Hd).
    rewrite !Forall_app. repeat split.
    + destruct Hp as [-> | ->]; [constructor | by apply Forall_singleton].
    + destruct Hr as [-> | ->]; [constructor | by apply Forall_singleton].
    + destruct Hd as [-> | ->]; [constructor | by apply Forall_singleton].
    + unfold callback_events, update_progress. apply Forall_singleton.
      simpl in Hlen |- *. nia.
Qed.

Lemma run_batches_progress (w : world) (self : GSCInspector) (selected_property : string)
    (urls : list string) (batch_size : nat) (delay : Z) (starts : list nat) :
  forall all_results s,
    exists evs,
      trace (snd (run_batches w self selected_property urls batch_size delay starts
                    all_results s))
      = trace s ++ evs
      /\ Forall progress_in_range evs.
Proof.
  induction starts as [|start rest IH]; intros all_results s; simpl.
  - exists []. by rewrite app_nil_r.
  - unfold mbind at 1, M_bind at 1. unfold batch_inspect.
    set (batch := take batch_size (drop start urls)).
    destruct (batch_loop_effects w self selected_property
                (Some (update_progress start (length batch) (length urls)))
                (length batch) batch 0 [] s) as (evs1 & Htrace1 & Hevs1 & _).
    destruct (batch_loop_returns w self selected_property
                (Some (update_progress start (length batch) (length urls)))
                (length batch) batch 0 [] s) as (outs1 & s1 & Hrun & _).
    rewrite Hrun in Htrace1 |- *. simpl in Htrace1. simpl app.
    unfold mbind at 1, M_bind at 1.
    assert (Forall progress_in_range evs1) as Hrange1.
    { destruct (decide (start <= length urls)%nat) as [Hle|Hgt].
      - apply (batch_events_in_range selected_property start (length batch)
                 (length urls) batch) with (i := 0%nat); [|done|done].
        subst batch. rewrite length_take, length_drop. lia.
      - assert (batch = []) as Hnil
          by (subst batch; rewrite drop_ge by lia; by rewrite take_nil).
        rewrite Hnil in Hevs1. simpl in Hevs1. subst evs1. constructor. }
    assert (exists s2 pause,
              (if (start + batch_size <? length urls)%nat
               then time_sleep (timedelta_seconds delay) else mret ()) s1 = (Ok (), s2)
              /\ trace s2 = trace s1 ++ pause
              /\ Forall progress_in_range pause) as (s2 & pause & -> & Htrace2 & Hrange2).
    { case_match; run_M.
      - eexists _, [EvSleep _]. repeat split. by apply Forall_singleton.
      - exists s1, []. rewrite app_nil_r. repeat split. constructor. }
    destruct (IH (all_results ++ outs1) s2) as (evs3 & Htrace3 & Hrange3).
    exists (evs1 ++ pause ++ evs3).
    rewrite Htrace3, Htrace2, Htrace1, <- !app_assoc. split; [done|].
    rewrite !Forall_app. auto.
Qed.

(** Every progress the driver reports during a run is a fraction with a
    denominator that is not zero, above 0 and at most 1. *)
Theorem start_inspection_progress_in_range (w : world) (self : GSCInspector)
    (use_cache : bool) (selected_property : string) (urls : list string)
    (batch_size : nat) (delay : Z) (s : session) :
  exists evs,
    trace (snd (start_inspection w self use_cache selected_property urls batch_size
                  delay s))
    = trace s ++ evs
    /\ Forall progress_in_range evs.
Proof.
  unfold start_inspection.
  destruct urls as [|url urls]; [exists []; by rewrite app_nil_r|].
  destruct batch_size as [|size]; [exists []; by rewrite app_nil_r|].
  apply run_batches_progress.
Qed.

(** The progress of a run of three URLs in batches of two. *)
Example start_inspection_progress_sample :
  filter (fun e => is_progress e = true)
    (trace (snd (start_inspection
                   (sample_world (clock_of [] (timedelta_seconds 5))
                      (always (Ok indexed_response)))
                   GSCInspector_init true site_a [url_1; url_2; url_1] 2 5
                   (initial_session 0))))
  = [EvProgress 2 6 "Processed 1 of 2 URLs";
     EvProgress 4 6 "Processed 2 of 2 URLs";
     EvProgress 3 3 "Processed 1 of 1 URLs"].
Proof. reflexivity. Qed.

(** ** Rollovers and the fallback message *)

(** On the first check of a later date the daily counter restarts at zero
    and the reset date becomes the time of the check; the check passes if
    the per-minute count it leaves is below its limit. *)
Theorem daily_rollover_on_new_date (self : GSCInspector) (now : datetime) (q : quota_usage) :
  0 < daily_limit self ->
  date (last_reset q) < date now ->
  daily (snd (check_quota_at self now q)) = 0
  /\ last_reset (snd (check_quota_at self now q)) = now
  /\ fst (check_quota_at self now q)
     = negb (per_minute (snd (check_quota_at self now q)) >=? minute_limit self).
Proof.
  intros Hlimit Hdate.
  destruct (check_quota_at_day_rollover self now q Hdate) as [Hdaily Hreset].
  split; [done|]. split; [done|].
  rewrite check_quota_at_answer, Hdaily.
  replace (0 >=? daily_limit self) with false; [done|].
  symmetry. rewrite Z.geb_leb. apply Z.leb_gt. lia.
Qed.

Lemma daily_rollover_on_new_date_witness :
  daily (snd (check_quota_at GSCInspector_init (timedelta_hours 25)
                (QuotaUsage 2000 7 (timedelta_hours 23) None))) = 0
  /\ last_reset (snd (check_quota_at GSCInspector_init (timedelta_hours 25)
                        (QuotaUsage 2000 7 (timedelta_hours 23) None)))
     = timedelta_hours 25
  /\ fst (check_quota_at GSCInspector_init (timedelta_hours 25)
            (QuotaUsage 2000 7 (timedelta_hours 23) None))
     = negb (per_minute (snd (check_quota_at GSCInspector_init (timedelta_hours 25)
                                (QuotaUsage 2000 7 (timedelta_hours 23) None)))
             >=? minute_limit GSCInspector_init).
Proof. apply daily_rollover_on_new_date; [simpl; lia | vm_compute; reflexivity]. Defined.

(** With a window start stored and the daily limit not reached, a check
    made more than 60 seconds after the window start sets the per-minute
    counter to zero and the window start to the time of the check. *)
Theorem minute_rollover_after_window (self : GSCInspector) (now start : datetime)
    (q : quota_usage) :
  minute_reset q = Some start ->
  daily q < daily_limit self ->
  date now <= date (last_reset q) ->
  timedelta_seconds 60 < now - start ->
  per_minute (snd (check_quota_at self now q)) = 0
  /\ minute_reset (snd (check_quota_at self now q)) = Some now
  /\ daily (snd (check_quota_at self now q)) = daily q.
Proof.
  intros Hstart Hdaily Hdate Hwindow.
  destruct (check_quota_at_same_day self now q Hdate) as [Hsame _].
  destruct (check_quota_at_minute_rollover self now q start Hstart) as [Hpm Hreset].
  - by rewrite Hsame.
  - exact Hwindow.
  - done.
Qed.

Lemma minute_rollover_after_window_witness :
  per_minute (snd (check_quota_at GSCInspector_init (timedelta_seconds 200)
                     (QuotaUsage 40 600 0 (Some (timedelta_seconds 100))))) = 0
  /\ minute_reset (snd (check_quota_at GSCInspector_init (timedelta_seconds 200)
                          (QuotaUsage 40 600 0 (Some (timedelta_seconds 100)))))
     = Some (timedelta_seconds 200)
  /\ daily (snd (check_quota_at GSCInspector_init (timedelta_seconds 200)
                   (QuotaUsage 40 600 0 (Some (timedelta_seconds 100))))) = 40.
Proof.
  apply (minute_rollover_after_window GSCInspector_init (timedelta_seconds 200)
           (timedelta_seconds 100)).
  - reflexivity.
  - simpl. lia.
  - vm_compute. discriminate.
  - vm_compute. reflexivity.
Defined.

(** An error body that is a JSON object without [error], or whose [error]
    is an object without [message], gives the message
    ["API Error: Unknown error"]. *)
Theorem api_error_unknown (w : world) (s : session) (body : list (string * json)) :
  dict_lookup "error" body = None
  \/ (exists err, dict_lookup "error" body = Some (JDict err)
                  /\ dict_lookup "message" err = None) ->
  api_error w (BodyJson (JDict body)) s
  = (Raise (Exception "API Error: Unknown error"), s).
Proof.
  intros [Hnone | (err & Herr & Hmsg)].
  - by apply api_error_fallback.
  - unfold api_error. run_M. unfold dict_get. rewrite Herr. simpl.
    unfold dict_get. by rewrite Hmsg.
Qed.

Lemma api_error_unknown_witness :
  api_error (sample_world (clock_of [] 0) (always (Ok JNull)))
    (BodyJson (JDict [("error", JDict [("code", JInt 500)])])) (initial_session 0)
  = (Raise (Exception "API Error: Unknown error"), initial_session 0).
Proof.
  apply api_error_unknown. right.
  exists [("code", JInt 500)]. split; reflexivity.
Defined.
